(** * Aged-care policy wiki: sessions, permissions, slugs and search

    A shallow embedding of the authentication helpers ([utils/auth]), the
    document helpers ([utils/documents]) and the login handler of the wiki,
    with the relational tables written as lists of rows and every SQL
    statement of the source written as the list operation it denotes.

    Conventions used throughout:
    - a table is a [list] of rows in storage order; [SELECT ... .first()] is
      [List.find], [UPDATE] is [List.map], [INSERT] appends;
    - the wall clock ([Date.now()], SQLite's [datetime('now')]) is an
      explicit argument [now], in milliseconds since the Unix epoch;
    - JavaScript strings are modelled by [string] whose characters are the
      code points U+0000..U+00FF;
    - a JavaScript [number] holding an integer is a [Z] (or an [N] for the
      probe counter); this is exact below 2^53. *)

From Stdlib Require Import ZArith NArith Lia Bool List Ascii String.
From Stdlib Require Import DecimalString DecimalN DecimalZ.
From Stdlib Require HexadecimalString HexadecimalN.
From Stdlib Require Import Sorted.
Import ListNotations.

Local Open Scope string_scope.
Local Open Scope Z_scope.

(* ================================================================== *)
(** ** Wall-clock time and its two textual renderings *)
(* ================================================================== *)

Module Clock.

(** Decimal digit [d mod 10] as a character. *)
Definition digit_char (d : Z) : ascii :=
  ascii_of_N (48 + Z.to_N (d mod 10)).

(** [pad w n]: the [w] low decimal digits of [n], zero padded
    ([String(n).padStart(w, '0')] / [printf("%0wd")] for [0 <= n < 10^w]). *)
Fixpoint pad (w : nat) (n : Z) : string :=
  match w with
  | O => ""
  | S w' => pad w' (n / 10) ++ String (digit_char n) ""
  end.

Definition ms_per_day : Z := 86400000.

(** Day number (days since 1970-01-01) and millisecond within the day. *)
Definition day_of (ms : Z) : Z := ms / ms_per_day.
Definition ms_in_day (ms : Z) : Z := ms mod ms_per_day.

(** Proleptic Gregorian calendar date of a day number: (year, month, day). *)
Definition civil_from_days (days : Z) : Z * Z * Z :=
  let z := days + 719468 in
  let era := z / 146097 in
  let doe := z - era * 146097 in
  let yoe := (doe - doe / 1460 + doe / 36524 - doe / 146096) / 365 in
  let y := yoe + era * 400 in
  let doy := doe - (365 * yoe + yoe / 4 - yoe / 100) in
  let mp := (5 * doy + 2) / 153 in
  let d := doy - (153 * mp + 2) / 5 + 1 in
  let m := if mp <? 10 then mp + 3 else mp - 9 in
  (if m <=? 2 then y + 1 else y, m, d).

(** Year field: four digits for years 0..9999; ECMAScript's expanded
    six-digit signed year otherwise. *)
Definition year_string (y : Z) : string :=
  if (0 <=? y) && (y <=? 9999) then pad 4 y
  else if y <? 0 then "-" ++ pad 6 (- y)
  else "+" ++ pad 6 y.

(** The calendar-date prefix [YYYY-MM-DD] shared by both renderings. *)
Definition date_string (days : Z) : string :=
  let '(y, m, d) := civil_from_days days in
  year_string y ++ "-" ++ pad 2 m ++ "-" ++ pad 2 d.

Definition hms_string (msd : Z) : string :=
  pad 2 (msd / 3600000) ++ ":" ++ pad 2 (msd / 60000 mod 60)
    ++ ":" ++ pad 2 (msd / 1000 mod 60).

(** [new Date(ms).toISOString()]: [YYYY-MM-DDTHH:mm:ss.sssZ]. *)
Definition toISOString (ms : Z) : string :=
  date_string (day_of ms) ++ "T" ++
    (hms_string (ms_in_day ms) ++ "." ++ pad 3 (ms_in_day ms mod 1000) ++ "Z").

(** SQLite's [datetime('now')] / [CURRENT_TIMESTAMP] at instant [ms]:
    [YYYY-MM-DD HH:MM:SS] in UTC, sub-second part dropped (for the years
    0..9999, which is where a clock reading lies). *)
Definition sqlite_datetime (ms : Z) : string :=
  date_string (day_of ms) ++ " " ++ hms_string (ms_in_day ms).

End Clock.


(* ================================================================== *)
(** ** Generic helpers on rows and strings *)
(* ================================================================== *)

(** JavaScript truthiness of an optional string: [undefined] and [''] are
    falsy. *)
Definition truthy_string (o : option string) : bool :=
  match o with
  | Some s => negb (String.eqb s "")
  | None => false
  end.

(** JavaScript truthiness of an optional integer number: [undefined] and [0]
    are falsy. *)
Definition truthy_number (o : option Z) : bool :=
  match o with
  | Some n => negb (n =? 0)
  | None => false
  end.

(** JavaScript truthiness of an optional boolean. *)
Definition truthy_bool (o : option bool) : bool :=
  match o with Some b => b | None => false end.

(** The value of an optional string or number on the branch where it was
    found truthy. *)
Definition string_value (o : option string) : string :=
  match o with Some s => s | None => "" end.

Definition number_value (o : option Z) : Z :=
  match o with Some n => n | None => 0 end.

(** Membership test on strings ([Array.prototype.includes], [Set.has]). *)
Definition includes (l : list string) (x : string) : bool :=
  existsb (String.eqb x) l.

(* ================================================================== *)
(** ** The relational store *)
(* ================================================================== *)

Record User := mkUser {
  uid : Z;
  email : string;
  name : string;
  password_hash : string;
  status : string;               (* 'active' | 'inactive' | 'suspended' *)
  last_login_at : option string
}.

(** [permissions] is the array obtained by [JSON.parse] from the TEXT column
    of the role (a JSON array of strings in every seeded role). *)
Record Role := mkRole {
  rid : Z;
  role_name : string;
  permissions : list string
}.

Record UserRole := mkUserRole {
  ur_user_id : Z;
  ur_role_id : Z
}.

Record Session := mkSession {
  sid : string;
  user_id : Z;
  expires_at : string;
  created_at : string;
  last_activity : string
}.

Record AuditLog := mkAuditLog {
  actor_id : option Z;
  action : string;
  object_type : string;
  object_id : option Z;
  changes : string;
  ip_address : string;
  user_agent : string
}.

Record Document := mkDocument {
  did : Z;
  title : string;
  slug : string;
  summary : option string;
  content_type : string;
  doc_status : string;
  owner_id : Z;
  effective_date : string;
  updated_at : string;
  category_id : Z;
  business_unit_id : option Z;
  search_content : option string
}.

Record DocumentTag := mkDocumentTag {
  dt_document_id : Z;
  dt_tag_id : Z
}.

Record DB := mkDB {
  users : list User;
  roles : list Role;
  user_roles : list UserRole;
  sessions : list Session;
  audit_logs : list AuditLog;
  documents : list Document;
  document_tags : list DocumentTag
}.

Definition set_sessions (db : DB) (ss : list Session) : DB :=
  mkDB (users db) (roles db) (user_roles db) ss
       (audit_logs db) (documents db) (document_tags db).

Definition set_users (db : DB) (us : list User) : DB :=
  mkDB us (roles db) (user_roles db) (sessions db)
       (audit_logs db) (documents db) (document_tags db).

Definition set_audit_logs (db : DB) (ls : list AuditLog) : DB :=
  mkDB (users db) (roles db) (user_roles db) (sessions db)
       ls (documents db) (document_tags db).

Definition set_documents (db : DB) (ds : list Document) : DB :=
  mkDB (users db) (roles db) (user_roles db) (sessions db)
       (audit_logs db) ds (document_tags db).

(* ================================================================== *)
(** ** utils/auth: sessions and permissions *)
(* ================================================================== *)

Module Auth.

Definition one_hour_ms : Z := 60 * 60 * 1000.

(** [createSession]: [sessionId] is the identifier drawn by
    [generateSessionId] (32 random bytes in hex), [now] the value of
    [Date.now()].  The INSERT leaves [created_at] and [last_activity] to
    their column default CURRENT_TIMESTAMP.  [None] is the exception raised
    by the store when the primary key [id] is already taken. *)
Definition createSession (db : DB) (sessionId : string) (userId : Z) (now : Z)
  : option (string * DB) :=
  let expiresAt := now + one_hour_ms in
  if existsb (fun s => String.eqb (sid s) sessionId) (sessions db) then None
  else
    let row := mkSession sessionId userId (Clock.toISOString expiresAt)
                 (Clock.sqlite_datetime now) (Clock.sqlite_datetime now) in
    Some (sessionId, set_sessions db (sessions db ++ [row])).

(** [getSession]:
    [SELECT * FROM sessions WHERE id = ? AND expires_at > datetime('now')].
    [expires_at] holds the text [createSession] bound, in [toISOString]'s
    form; [datetime('now')] yields text in SQLite's form.  Neither is a
    number, so the NUMERIC affinity of the DATETIME column converts nothing
    and SQLite orders the two TEXT values bytewise. *)
Definition getSession (db : DB) (sessionId : string) (now : Z)
  : option Session :=
  find (fun s => String.eqb (sid s) sessionId
                 && String.ltb (Clock.sqlite_datetime now) (expires_at s))
       (sessions db).

(** [updateSessionActivity]:
    [UPDATE sessions SET last_activity = datetime('now') WHERE id = ?]. *)
Definition touch (sessionId : string) (now : Z) (s : Session) : Session :=
  if String.eqb (sid s) sessionId
  then mkSession (sid s) (user_id s) (expires_at s) (created_at s)
         (Clock.sqlite_datetime now)
  else s.

Definition updateSessionActivity (db : DB) (sessionId : string) (now : Z)
  : DB :=
  set_sessions db (map (touch sessionId now) (sessions db)).

(** [deleteSession]: [DELETE FROM sessions WHERE id = ?]. *)
Definition deleteSession (db : DB) (sessionId : string) : DB :=
  set_sessions db
    (filter (fun s => negb (String.eqb (sid s) sessionId)) (sessions db)).

(** [SELECT * FROM users WHERE id = ? AND status = 'active']. *)
Definition active_user_by_id (db : DB) (userId : Z) : option User :=
  find (fun u => (uid u =? userId) && String.eqb (status u) "active")
       (users db).

(** [getUserFromSession]: the user returned (or [null]) and the store
    afterwards. *)
Definition getUserFromSession (db : DB) (sessionId : string) (now : Z)
  : option User * DB :=
  if String.eqb sessionId "" then (None, db)
  else
    match getSession db sessionId now with
    | None => (None, db)
    | Some session =>
        match active_user_by_id db (user_id session) with
        | Some user => (Some user, updateSessionActivity db sessionId now)
        | None => (None, db)
        end
    end.

(** Rows of
    [SELECT r.permissions FROM roles r JOIN user_roles ur
       ON r.id = ur.role_id WHERE ur.user_id = ?]: one row per pair of a role
    and an assignment of that role to the user. *)
Definition permission_rows (db : DB) (userId : Z) : list (list string) :=
  flat_map
    (fun r =>
       map (fun _ => permissions r)
           (filter (fun ur => (rid r =? ur_role_id ur)
                              && (ur_user_id ur =? userId))
                   (user_roles db)))
    (roles db).

(** [Set.prototype.add] on an insertion-ordered set. *)
Definition set_add (acc : list string) (p : string) : list string :=
  if includes acc p then acc else acc ++ [p].

(** [getUserPermissions]: the union of the permission arrays of the rows,
    in first-insertion order. *)
Definition getUserPermissions (db : DB) (userId : Z) : list string :=
  fold_left (fun allPermissions row => fold_left set_add row allPermissions)
            (permission_rows db userId) [].

(** [hasPermission]. *)
Definition hasPermission (db : DB) (userId : Z) (permission : string) : bool :=
  let permissions := getUserPermissions db userId in
  if includes permissions "*" then true
  else includes permissions permission.

(** A role is assigned to a user when the join above pairs them. *)
Definition assigned (db : DB) (userId : Z) (r : Role) : Prop :=
  In r (roles db) /\
  exists ur, In ur (user_roles db) /\
             ur_user_id ur = userId /\ ur_role_id ur = rid r.

(** The operations on a session that a request can perform after login. *)
Inductive session_op : Type :=
| OpGetSession (sessionId : string) (now : Z)
| OpGetUserFromSession (sessionId : string) (now : Z)
| OpUpdateSessionActivity (sessionId : string) (now : Z).

Definition run_op (db : DB) (op : session_op) : DB :=
  match op with
  | OpGetSession _ _ => db
  | OpGetUserFromSession sessionId now =>
      snd (getUserFromSession db sessionId now)
  | OpUpdateSessionActivity sessionId now =>
      updateSessionActivity db sessionId now
  end.

Definition run_ops (db : DB) (ops : list session_op) : DB :=
  fold_left run_op ops db.

(** The columns of a session row other than [last_activity]. *)
Definition session_frame (s : Session) : string * Z * string * string :=
  (sid s, user_id s, expires_at s, created_at s).

End Auth.

(* ================================================================== *)
(** ** index: the POST /api/auth/login handler *)
(* ================================================================== *)

Module Login.

(** The parsed form body and the two request headers the handler reads;
    [None] is [undefined]. *)
Record Request := mkRequest {
  body_email : option string;
  body_password : option string;
  header_cf_connecting_ip : option string;
  header_user_agent : option string
}.

Record Cookie := mkCookie {
  cookie_name : string;
  cookie_value : string;
  cookie_path : string;
  httpOnly : bool;
  secure : bool;
  sameSite : string;
  maxAge : Z
}.

Inductive Payload : Type :=
| JsonError (error : string)          (* c.json({ error }, status) *)
| RedirectTo (location : string).     (* c.redirect(location) *)

Record Response := mkResponse {
  status_code : Z;
  payload : Payload;
  set_cookie : option Cookie
}.

Definition json (error : string) (code : Z) : Response :=
  mkResponse code (JsonError error) None.

(** [x || 'unknown'] on a header value. *)
Definition or_unknown (h : option string) : string :=
  match h with
  | Some v => if String.eqb v "" then "unknown" else v
  | None => "unknown"
  end.

Definition dquote : string := String (ascii_of_N 34) "".

(** [JSON.stringify({ success: true })]. *)
Definition success_true_json : string :=
  "{" ++ dquote ++ "success" ++ dquote ++ ":true}".

(** [logAudit]: one row appended to [audit_logs]. *)
Definition logAudit (db : DB) (actorId : option Z) (action objectType : string)
  (objectId : option Z) (changes ipAddress userAgent : string) : DB :=
  set_audit_logs db
    (audit_logs db ++
       [mkAuditLog actorId action objectType objectId changes
          ipAddress userAgent]).

(** [UPDATE users SET last_login_at = datetime('now') WHERE id = ?]. *)
Definition mark_login (userId : Z) (now : Z) (u : User) : User :=
  if uid u =? userId
  then mkUser (uid u) (email u) (name u) (password_hash u) (status u)
         (Some (Clock.sqlite_datetime now))
  else u.

(** [SELECT * FROM users WHERE email = ? AND status = 'active']. *)
Definition active_user_by_email (db : DB) (e : string) : option User :=
  find (fun u => String.eqb (email u) e && String.eqb (status u) "active")
       (users db).

Section Handler.

(** [bcrypt.compare password hash]. *)
Variable verifyPassword : string -> string -> bool.

(** The handler: [sessionId] is the identifier [generateSessionId] draws for
    this request, [now] the clock.  The [catch] branch (500) is reached when
    [createSession] raises. *)
Definition login (sessionId : string) (now : Z) (req : Request) (db : DB)
  : Response * DB :=
  if negb (truthy_string (body_email req))
     || negb (truthy_string (body_password req))
  then (json "Email and password are required" 400, db)
  else
    let email := string_value (body_email req) in
    let password := string_value (body_password req) in
    match active_user_by_email db email with
    | None => (json "Invalid email or password" 401, db)
    | Some user =>
        if negb (verifyPassword password (password_hash user))
        then (json "Invalid email or password" 401, db)
        else
          match Auth.createSession db sessionId (uid user) now with
          | None => (json "Login failed" 500, db)
          | Some (sessionId, db1) =>
              let db2 :=
                set_users db1 (map (mark_login (uid user) now) (users db1)) in
              let db3 :=
                logAudit db2 (Some (uid user)) "login" "user"
                  (Some (uid user)) success_true_json
                  (or_unknown (header_cf_connecting_ip req))
                  (or_unknown (header_user_agent req)) in
              (mkResponse 302 (RedirectTo "/")
                 (Some (mkCookie "session_id" sessionId "/" true true
                          "Lax" 3600)),
               db3)
          end
    end.

End Handler.

End Login.

(* ================================================================== *)
(** ** utils/documents: slugs and search *)
(* ================================================================== *)

Module Documents.

(** *** Character classes of the regular expressions *)

Definition code (c : ascii) : N := N_of_ascii c.

Definition in_range (lo hi : N) (c : ascii) : bool :=
  ((lo <=? code c) && (code c <=? hi))%N.

(** [\w] = [[A-Za-z0-9_]]. *)
Definition is_word (c : ascii) : bool :=
  in_range 97 122 c || in_range 65 90 c || in_range 48 57 c
  || (code c =? 95)%N.

(** [\s] within U+0000..U+00FF: TAB, LF, VT, FF, CR, SPACE and NBSP. *)
Definition is_space (c : ascii) : bool :=
  in_range 9 13 c || (code c =? 32)%N || (code c =? 160)%N.

Definition is_hyphen (c : ascii) : bool := (code c =? 45)%N.

Definition no_space (c : ascii) : bool := negb (is_space c).

(** The characters a slug is made of: [[a-z0-9_-]]. *)
Definition slug_char (c : ascii) : bool :=
  in_range 97 122 c || in_range 48 57 c || (code c =? 95)%N || is_hyphen c.

Definition hyphen : ascii := "-"%char.

(** [String.prototype.toLowerCase] on one character of U+0000..U+00FF:
    A-Z and the upper-case letters of Latin-1 move down by 32. *)
Definition lower_char (c : ascii) : ascii :=
  if in_range 65 90 c || in_range 192 214 c || in_range 216 222 c
  then ascii_of_N (code c + 32)
  else c.

Fixpoint string_map (f : ascii -> ascii) (s : string) : string :=
  match s with
  | EmptyString => EmptyString
  | String c s' => String (f c) (string_map f s')
  end.

Fixpoint string_filter (p : ascii -> bool) (s : string) : string :=
  match s with
  | EmptyString => EmptyString
  | String c s' =>
      if p c then String c (string_filter p s') else string_filter p s'
  end.

Fixpoint string_forallb (p : ascii -> bool) (s : string) : bool :=
  match s with
  | EmptyString => true
  | String c s' => p c && string_forallb p s'
  end.

(** [s.replace(/X+/g, r)]: every maximal run of characters of class [p]
    becomes the single character [r]. *)
Fixpoint collapse_runs (p : ascii -> bool) (r : ascii) (s : string) : string :=
  match s with
  | EmptyString => EmptyString
  | String c s' =>
      if p c then
        match s' with
        | EmptyString => String r EmptyString
        | String c' _ =>
            if p c' then collapse_runs p r s'
            else String r (collapse_runs p r s')
        end
      else String c (collapse_runs p r s')
  end.

Fixpoint trim_start (s : string) : string :=
  match s with
  | EmptyString => EmptyString
  | String c s' => if is_space c then trim_start s' else s
  end.

Fixpoint trim_end (s : string) : string :=
  match s with
  | EmptyString => EmptyString
  | String c s' =>
      match trim_end s' with
      | EmptyString => if is_space c then EmptyString else String c EmptyString
      | t => String c t
      end
  end.

(** [String.prototype.trim]. *)
Definition trim (s : string) : string := trim_end (trim_start s).

Definition toLowerCase (s : string) : string := string_map lower_char s.

(** The character class kept by [replace(/[^\w\s-]/g, '')]. *)
Definition kept (c : ascii) : bool := is_word c || is_space c || is_hyphen c.

(** [generateSlug]. *)
Definition generateSlug (title : string) : string :=
  trim
    (collapse_runs is_hyphen hyphen
       (collapse_runs is_space hyphen
          (string_filter kept (toLowerCase title)))).

(** The three steps the specification names, in its words: lower-case the
    title, strip the characters that are not word characters, collapse
    whitespace runs to hyphens.  Whitespace and hyphens survive the
    stripping step here, as they do in the source. *)
Definition spec_generateSlug (title : string) : string :=
  collapse_runs is_space hyphen (string_filter kept (toLowerCase title)).

(** The same three steps with the stripping step read to the letter on
    hyphens: only word characters and the whitespace still to be collapsed
    are kept. *)
Definition spec_generateSlug_strict (title : string) : string :=
  collapse_runs is_space hyphen
    (string_filter (fun c => is_word c || is_space c) (toLowerCase title)).

(** *** ensureUniqueSlug *)

(** [String(counter)] for a non-negative integer. *)
Definition number_to_string (n : N) : string :=
  NilEmpty.string_of_uint (N.to_uint n).

(** The probe of one loop iteration: does [query.first()] find a row?  A
    [documentId] of [0] is falsy and selects the query without the
    [id != ?] condition, like an absent one. *)
Definition slug_taken (db : DB) (s : string) (documentId : option Z) : bool :=
  match documentId with
  | Some i =>
      if i =? 0 then existsb (fun d => String.eqb (slug d) s) (documents db)
      else existsb (fun d => String.eqb (slug d) s && negb (did d =? i))
                   (documents db)
  | None => existsb (fun d => String.eqb (slug d) s) (documents db)
  end.

(** The [k]-th candidate of the probe sequence: [baseSlug], then
    [`${baseSlug}-${k}`]. *)
Definition candidate (baseSlug : string) (k : N) : string :=
  match k with
  | N0 => baseSlug
  | _ => baseSlug ++ "-" ++ number_to_string k
  end.

(** The [while (true)] loop, entered with the current [slug] and [counter];
    [fuel] bounds the number of iterations and [None] means the bound was
    reached before the loop returned. *)
Fixpoint ensureUniqueSlug_loop (fuel : nat) (db : DB) (baseSlug : string)
  (documentId : option Z) (slug : string) (counter : N) : option string :=
  match fuel with
  | O => None
  | S fuel' =>
      if negb (slug_taken db slug documentId) then Some slug
      else ensureUniqueSlug_loop fuel' db baseSlug documentId
             (baseSlug ++ "-" ++ number_to_string counter) (counter + 1)%N
  end.

(** [ensureUniqueSlug]: [slug = baseSlug], [counter = 1], then the loop. *)
Definition ensureUniqueSlug (fuel : nat) (db : DB) (baseSlug : string)
  (documentId : option Z) : option string :=
  ensureUniqueSlug_loop fuel db baseSlug documentId baseSlug 1%N.

(** *** searchDocuments *)

Inductive SortBy : Type := relevance | date | by_title.

Record SearchOptions := mkSearchOptions {
  query : option string;
  contentType : option string;
  category : option Z;
  businessUnit : option Z;
  opt_status : option string;
  owner : option Z;
  tags : option (list Z);
  fromDate : option string;
  toDate : option string;
  limit : option Z;
  offset : option Z;
  sortBy : option SortBy;
  includeArchived : option bool
}.

(** ASCII case folding of SQLite's LIKE. *)
Definition fold_case (c : ascii) : ascii :=
  if in_range 65 90 c then ascii_of_N (code c + 32) else c.

(** SQLite's [text LIKE pattern] (no ESCAPE): [%] matches any run of
    characters, [_] any one character, other characters match themselves up
    to ASCII case. *)
Fixpoint like (pattern text : string) : bool :=
  match pattern with
  | EmptyString =>
      match text with EmptyString => true | _ => false end
  | String p pattern' =>
      if (code p =? 37)%N then
        (fix any_suffix (t : string) : bool :=
           like pattern' t
           || match t with
              | EmptyString => false
              | String _ t' => any_suffix t'
              end) text
      else
        match text with
        | EmptyString => false
        | String c text' =>
            ((code p =? 95)%N || Ascii.eqb (fold_case p) (fold_case c))
            && like pattern' text'
        end
  end.

(** [col LIKE ?] on a nullable column: NULL never satisfies the WHERE. *)
Definition like_nullable (col : option string) (pattern : string) : bool :=
  match col with
  | Some t => like pattern t
  | None => false
  end.

Definition eq_nullable (col : option Z) (v : Z) : bool :=
  match col with
  | Some x => x =? v
  | None => false
  end.

(** The status condition:
    [if (options.status) d.status = ?
     else if (!options.includeArchived) d.status != 'archived']. *)
Definition status_condition (options : SearchOptions) (d : Document) : bool :=
  if truthy_string (opt_status options) then
    String.eqb (doc_status d) (string_value (opt_status options))
  else if negb (truthy_bool (includeArchived options)) then
    negb (String.eqb (doc_status d) "archived")
  else true.

(** [d.id IN (SELECT document_id FROM document_tags WHERE tag_id IN (...))]. *)
Definition tag_condition (db : DB) (options : SearchOptions) (d : Document)
  : bool :=
  match tags options with
  | Some (t :: ts) =>
      existsb (fun dt => (dt_document_id dt =? did d)
                         && existsb (Z.eqb (dt_tag_id dt)) (t :: ts))
              (document_tags db)
  | _ => true
  end.

(** The conditions other than the one on the status.  Dates are compared
    as SQLite compares the TEXT values [YYYY-MM-DD]: bytewise. *)
Definition other_conditions (db : DB) (options : SearchOptions) (d : Document)
  : bool :=
  (if truthy_string (query options) then
     let searchPattern := "%" ++ string_value (query options) ++ "%" in
     like searchPattern (title d)
     || like_nullable (summary d) searchPattern
     || like_nullable (search_content d) searchPattern
   else true)
  && (if truthy_string (contentType options) then
        String.eqb (content_type d) (string_value (contentType options))
      else true)
  && (if truthy_number (category options) then
        category_id d =? number_value (category options)
      else true)
  && (if truthy_number (businessUnit options) then
        eq_nullable (business_unit_id d) (number_value (businessUnit options))
      else true)
  && (if truthy_number (owner options) then
        owner_id d =? number_value (owner options)
      else true)
  && (if truthy_string (fromDate options) then
        String.leb (string_value (fromDate options)) (effective_date d)
      else true)
  && (if truthy_string (toDate options) then
        String.leb (effective_date d) (string_value (toDate options))
      else true)
  && tag_condition db options d.

(** The whole WHERE clause. *)
Definition where_clause (db : DB) (options : SearchOptions) (d : Document)
  : bool :=
  other_conditions db options d && status_condition options d.

(** The ORDER BY clause as "[a] may come before [b]". *)
Definition order_le (options : SearchOptions) (a b : Document) : bool :=
  match sortBy options with
  | Some by_title => String.leb (title a) (title b)
  | Some date => String.leb (effective_date b) (effective_date a)
  | _ => String.leb (updated_at b) (updated_at a)
  end.

Fixpoint insert_sorted (le : Document -> Document -> bool) (x : Document)
  (l : list Document) : list Document :=
  match l with
  | [] => [x]
  | y :: l' => if le x y then x :: l else y :: insert_sorted le x l'
  end.

(** Rows in ORDER BY order; rows with equal keys keep their storage order
    (SQL leaves the order of ties open). *)
Definition order_by (le : Document -> Document -> bool) (l : list Document)
  : list Document :=
  fold_right (insert_sorted le) [] l.

(** [LIMIT ? OFFSET ?] as SQLite evaluates it: a negative OFFSET counts as
    0 and a negative LIMIT means no limit. *)
Definition limit_offset (lim off : Z) (rows : list Document)
  : list Document :=
  let rest := skipn (Z.to_nat off) rows in
  if lim <? 0 then rest else firstn (Z.to_nat lim) rest.

(** [options.limit || 20] and [options.offset || 0]. *)
Definition effective_limit (options : SearchOptions) : Z :=
  if truthy_number (limit options) then number_value (limit options) else 20.

Definition effective_offset (options : SearchOptions) : Z :=
  if truthy_number (offset options) then number_value (offset options) else 0.

(** The rows the WHERE clause selects, in ORDER BY order, before LIMIT and
    OFFSET. *)
Definition matching_rows (db : DB) (options : SearchOptions)
  : list Document :=
  order_by (order_le options) (filter (where_clause db options) (documents db)).

(** [searchDocuments].  The two LEFT JOINs are on the primary keys of
    [categories] and [users]: they add display columns to a document row and
    neither add nor remove rows, and DISTINCT removes none since [d.id] is
    the primary key; a result row is identified with its document. *)
Definition searchDocuments (db : DB) (options : SearchOptions)
  : list Document :=
  limit_offset (effective_limit options) (effective_offset options)
    (matching_rows db options).

End Documents.

(* ================================================================== *)
(** ** utils/auth: session identifiers, purging and the guards *)
(* ================================================================== *)

Module AuthGuards.

(** [Number.prototype.toString(16)] on a byte value. *)
Definition toString16 (n : N) : string :=
  HexadecimalString.NilEmpty.string_of_uint (N.to_hex_uint n).

(** [String.prototype.padStart(targetLength, padChar)] with a one-character
    pad string. *)
Definition padStart (targetLength : nat) (padChar : ascii) (s : string)
  : string :=
  string_of_list_ascii
    (repeat padChar (targetLength - String.length s)) ++ s.

Definition byte_hex (b : Byte.byte) : string :=
  padStart 2 "0"%char (toString16 (Byte.to_N b)).

(** [generateSessionId]: [array] is the content of the [Uint8Array(32)]
    after [crypto.getRandomValues]. *)
Definition generateSessionId (array : list Byte.byte) : string :=
  String.concat "" (map byte_hex array).

(** Value of a lower-case hexadecimal digit. *)
Definition hex_value (c : ascii) : option N :=
  let n := N_of_ascii c in
  if ((48 <=? n) && (n <=? 57))%N then Some (n - 48)%N
  else if ((97 <=? n) && (n <=? 102))%N then Some (n - 87)%N
  else None.

Definition is_hex_digit (c : ascii) : bool :=
  match hex_value c with Some _ => true | None => false end.

(** Reading a session identifier back, two digits per byte. *)
Fixpoint unhex (s : string) : option (list Byte.byte) :=
  match s with
  | EmptyString => Some []
  | String a (String b rest) =>
      match hex_value a, hex_value b, unhex rest with
      | Some x, Some y, Some bytes =>
          match Byte.of_N (16 * x + y) with
          | Some byte => Some (byte :: bytes)
          | None => None
          end
      | _, _, _ => None
      end
  | String _ EmptyString => None
  end.

(** [cleanExpiredSessions]:
    [DELETE FROM sessions WHERE expires_at < datetime('now')]. *)
Definition cleanExpiredSessions (db : DB) (now : Z) : DB :=
  set_sessions db
    (filter (fun s => negb (String.ltb (expires_at s)
                              (Clock.sqlite_datetime now)))
            (sessions db)).





End AuthGuards.

(* ================================================================== *)
(** ** Routes: logout, the admin pages, the search API, the document page *)
(* ================================================================== *)

Module Routes.

(** [sessionId ? await getUserFromSession(c.env.DB, sessionId) : null],
    the opening of every page handler; [cookie] is
    [getCookie(c, 'session_id')]. *)
Definition session_user (db : DB) (cookie : option string) (now : Z)
  : option User * DB :=
  if truthy_string cookie
  then Auth.getUserFromSession db (string_value cookie) now
  else (None, db).

(** [deleteCookie(c, 'session_id', { path: '/' })]: the cookie is set again
    with an empty value and a maximal age of 0. *)
Definition deleted_session_cookie : Login.Cookie :=
  Login.mkCookie "session_id" "" "/" false false "" 0.

(** GET /api/auth/logout. *)
Definition logout (cookie : option string) (db : DB) : Login.Response * DB :=
  let db' :=
    if truthy_string cookie
    then Auth.deleteSession db (string_value cookie)
    else db in
  (Login.mkResponse 302 (Login.RedirectTo "/") (Some deleted_session_cookie),
   db').

(** What an admin route answers: a redirect or the page with the given
    layout title (the markup itself is not modelled). *)
Inductive Reply : Type :=
| Redirect (location : string)
| Render (title : string).

Inductive AdminRoute : Type :=
| AdminDashboard      (* GET /admin *)
| AdminUpload         (* GET /admin/upload *)
| AdminApprovals      (* GET /admin/approvals *)
| AdminUsers.         (* GET /admin/users *)

(** The route handlers, run once the middleware has put [user] into the
    context.  Their remaining queries only read. *)
Definition admin_handler (route : AdminRoute) (db : DB) (user : User)
  : Reply :=
  match route with
  | AdminDashboard =>
      let permissions := Auth.getUserPermissions db (uid user) in
      let isAdmin :=
        includes permissions "*" || includes permissions "manage_users" in
      if negb isAdmin && negb (includes permissions "upload")
      then Redirect "/"
      else Render "Admin Portal"
  | AdminUpload => Render "Upload Document"
  | AdminApprovals =>
      let permissions := Auth.getUserPermissions db (uid user) in
      if negb (includes permissions "approve")
         && negb (includes permissions "*")
      then Redirect "/admin"
      else Render "Pending Approvals"
  | AdminUsers =>
      let permissions := Auth.getUserPermissions db (uid user) in
      if negb (includes permissions "manage_users")
         && negb (includes permissions "*")
      then Redirect "/admin"
      else Render "User Management"
  end.

(** A request to an admin route: the [adminRoutes.use('*', ...)] middleware,
    then the handler. *)
Definition admin (route : AdminRoute) (cookie : option string) (now : Z)
  (db : DB) : Reply * DB :=
  let '(user, db') := session_user db cookie now in
  match user with
  | None => (Redirect "/login", db')
  | Some u => (admin_handler route db' u, db')
  end.

(** *** GET /api/search *)

Record SearchRequest := mkSearchRequest {
  param_q : option string;
  param_type : option string;
  param_category : option string;
  param_status : option string;
  param_limit : option string;
  param_offset : option string
}.

Record SearchReply := mkSearchReply {
  results : list Document;
  total : nat;
  reply_limit : option Z;
  reply_offset : option Z
}.

(** [x || d] on a query parameter. *)
Definition or_default (x : option string) (d : string) : string :=
  if truthy_string x then string_value x else d.

Section SearchApi.

(** [parseInt]; [None] is NaN, which is falsy like an absent number. *)
Variable parseInt : string -> option Z.

Definition api_search_options (req : SearchRequest)
  : Documents.SearchOptions :=
  Documents.mkSearchOptions
    (param_q req)
    (param_type req)
    (if truthy_string (param_category req)
     then parseInt (string_value (param_category req))
     else None)
    None
    (Some (or_default (param_status req) "published"))
    None None None None
    (parseInt (or_default (param_limit req) "20"))
    (parseInt (or_default (param_offset req) "0"))
    None None.

Definition api_search (req : SearchRequest) (db : DB) : SearchReply :=
  let results := Documents.searchDocuments db (api_search_options req) in
  mkSearchReply results (List.length results)
    (parseInt (or_default (param_limit req) "20"))
    (parseInt (or_default (param_offset req) "0")).

End SearchApi.

(** *** The document page *)

Record Tag := mkTag {
  tag_id : Z;
  label : string;
  tag_slug : string;
  color : string
}.

Record DocumentVersion := mkDocumentVersion {
  dv_id : Z;
  dv_document_id : Z;
  version_number : Z;
  file_key : string;
  checksum : string;
  uploader_id : Z;
  is_current : bool
}.

Record RelatedDocument := mkRelatedDocument {
  rd_document_id : Z;
  rd_related_document_id : Z;
  relationship_type : string
}.

Record DocumentView := mkDocumentView {
  view_document_id : Z;
  view_user_id : Z
}.

(** The store together with the tables the document page reads and writes
    besides. *)
Record Library := mkLibrary {
  lib_db : DB;
  lib_tags : list Tag;
  lib_versions : list DocumentVersion;
  lib_related : list RelatedDocument;
  lib_views : list DocumentView
}.

Definition set_lib_db (lib : Library) (db : DB) : Library :=
  mkLibrary db (lib_tags lib) (lib_versions lib) (lib_related lib)
    (lib_views lib).

Record DocumentDetail := mkDocumentDetail {
  detail_doc : Document;
  detail_tags : list Tag;
  currentVersion : option DocumentVersion
}.

(** [getDocumentBySlug].  The LEFT JOINs of the first query are on primary
    keys and add display columns only. *)
Definition getDocumentBySlug (lib : Library) (s : string)
  : option DocumentDetail :=
  match find (fun d => String.eqb (slug d) s) (documents (lib_db lib)) with
  | None => None
  | Some doc =>
      let tags :=
        flat_map
          (fun t =>
             map (fun _ => t)
                 (filter (fun dt => (tag_id t =? dt_tag_id dt)
                                    && (dt_document_id dt =? did doc))
                         (document_tags (lib_db lib))))
          (lib_tags lib) in
      let version :=
        find (fun v => (dv_document_id v =? did doc) && is_current v)
             (lib_versions lib) in
      Some (mkDocumentDetail doc tags version)
  end.

(** [getRelatedDocuments]: the related documents with the kind of
    relationship. *)
Definition getRelatedDocuments (lib : Library) (documentId : Z)
  : list (Document * string) :=
  flat_map
    (fun d =>
       map (fun rd => (d, relationship_type rd))
           (filter (fun rd => (did d =? rd_related_document_id rd)
                              && (rd_document_id rd =? documentId))
                   (lib_related lib)))
    (documents (lib_db lib)).

Fixpoint insert_version (x : DocumentVersion) (l : list DocumentVersion)
  : list DocumentVersion :=
  match l with
  | [] => [x]
  | y :: l' =>
      if version_number y <=? version_number x then x :: l
      else y :: insert_version x l'
  end.

(** [getDocumentVersions]: the versions of a document,
    [ORDER BY version_number DESC]. *)
Definition getDocumentVersions (lib : Library) (documentId : Z)
  : list DocumentVersion :=
  fold_right insert_version []
    (filter (fun v => dv_document_id v =? documentId) (lib_versions lib)).

(** The order of the result: the higher version number comes first. *)
Definition newer_first (a b : DocumentVersion) : Prop :=
  version_number b <= version_number a.

Inductive PageReply : Type :=
| PageNotFound
| PageDocument (doc : DocumentDetail) (related : list (Document * string)).

(** GET /documents/:slug. *)
Definition document_page (s : string) (cookie : option string) (now : Z)
  (lib : Library) : PageReply * Library :=
  let '(user, db') := session_user (lib_db lib) cookie now in
  let lib1 := set_lib_db lib db' in
  match getDocumentBySlug lib1 s with
  | None => (PageNotFound, lib1)
  | Some doc =>
      if negb (String.eqb (doc_status (detail_doc doc)) "published")
         && match user with Some _ => false | None => true end
      then (PageNotFound, lib1)
      else
        let related := getRelatedDocuments lib1 (did (detail_doc doc)) in
        let lib2 :=
          match user with
          | Some u =>
              mkLibrary (lib_db lib1) (lib_tags lib1) (lib_versions lib1)
                (lib_related lib1)
                (lib_views lib1
                   ++ [mkDocumentView (did (detail_doc doc)) (uid u)])
          | None => lib1
          end in
        (PageDocument doc related, lib2)
  end.

End Routes.

(* ================================================================== *)
(** ** utils/documents: classification and file storage *)
(* ================================================================== *)

Module Files.

(** [String.prototype.includes]. *)
Fixpoint str_includes (s sub : string) : bool :=
  String.prefix sub s
  || match s with
     | EmptyString => false
     | String _ s' => str_includes s' sub
     end.

(** [detectFileType]. *)
Definition detectFileType (mimeType : string) : string :=
  if str_includes mimeType "pdf" then "pdf"
  else if str_includes mimeType "wordprocessingml"
          || str_includes mimeType "msword" then "docx"
  else if str_includes mimeType "spreadsheetml"
          || str_includes mimeType "excel" then "xlsx"
  else if str_includes mimeType "csv" then "csv"
  else if str_includes mimeType "presentationml"
          || str_includes mimeType "powerpoint" then "pptx"
  else if str_includes mimeType "html" then "html"
  else if str_includes mimeType "markdown" then "markdown"
  else if str_includes mimeType "image" then "image"
  else "text".

(** [autoClassifyContentType]; [content || ''] reads an absent content as
    the empty string. *)
Definition autoClassifyContentType (title : string) (content : option string)
  : string :=
  let titleLower := Documents.toLowerCase title in
  let fullText :=
    Documents.toLowerCase (titleLower ++ " " ++ string_value content) in
  if str_includes titleLower "policy"
     || str_includes fullText "policy statement" then "policy"
  else if str_includes titleLower "procedure"
          || str_includes titleLower "sop" then "procedure"
  else if str_includes titleLower "work instruction" then "work_instruction"
  else if str_includes titleLower "form"
          || str_includes titleLower "template" then "form"
  else if str_includes titleLower "guideline"
          || str_includes titleLower "guide" then "guideline"
  else if str_includes titleLower "register"
          || str_includes titleLower "log" then "register"
  else if str_includes titleLower "checklist" then "checklist"
  else if str_includes titleLower "faq" then "faq"
  else "policy".

(** An uploaded [File]. *)
Record File := mkFile {
  file_name : string;
  file_type : string;
  file_bytes : list Byte.byte
}.

(** An object of the R2 bucket. *)
Record R2Object := mkR2Object {
  body : list Byte.byte;
  contentType : string
}.

(** The bucket: at most one object per key. *)
Definition Bucket : Type := list (string * R2Object).

Definition bucket_delete (storage : Bucket) (key : string) : Bucket :=
  filter (fun kv => negb (String.eqb (fst kv) key)) storage.

(** [storage.put(key, value, ...)] replaces the object under [key]. *)
Definition bucket_put (storage : Bucket) (key : string) (o : R2Object)
  : Bucket :=
  (key, o) :: bucket_delete storage key.

Definition bucket_get (storage : Bucket) (key : string) : option R2Object :=
  option_map snd (find (fun kv => String.eqb (fst kv) key) storage).

Definition not_slash (c : ascii) : bool := negb (Ascii.eqb c "/").

(** [String(n)] for an integer. *)
Definition integer_to_string (n : Z) : string :=
  NilEmpty.string_of_int (Z.to_int n).

(** The storage key
    [`documents/${documentId}/v${versionNumber}/${file.name}`]. *)
Definition file_key_of (documentId versionNumber : Z) (fileName : string)
  : string :=
  "documents/" ++ integer_to_string documentId ++ "/v"
    ++ integer_to_string versionNumber ++ "/" ++ fileName.

(** [storeFile]: the key returned and the bucket afterwards. *)
Definition storeFile (storage : Bucket) (file : File)
  (documentId versionNumber : Z) : string * Bucket :=
  let key := file_key_of documentId versionNumber (file_name file) in
  (key, bucket_put storage key (mkR2Object (file_bytes file) (file_type file))).

(** [getFile] and [deleteFile]. *)
Definition getFile (storage : Bucket) (fileKey : string) : option R2Object :=
  bucket_get storage fileKey.

Definition deleteFile (storage : Bucket) (fileKey : string) : Bucket :=
  bucket_delete storage fileKey.

End Files.

(* ================================================================== *)
(** ** routes/public: the search page and the recent page *)
(* ================================================================== *)

Module PublicPages.

(** What a list page hands to its layout: the signed-in user, if any, and
    the documents listed. *)
Record ListPage := mkListPage {
  page_user : option User;
  listed : list Document
}.

(** [{ query, status: 'published', limit: 50 }]. *)
Definition search_page_options (q : string) : Documents.SearchOptions :=
  Documents.mkSearchOptions (Some q) None None None (Some "published") None
    None None None (Some 50) None None None.

(** GET /search: [param_q] is [c.req.query('q')]. *)
Definition search_page (param_q : option string) (cookie : option string)
  (now : Z) (db : DB) : ListPage * DB :=
  let query := Routes.or_default param_q "" in
  let '(user, db') := Routes.session_user db cookie now in
  let results :=
    if negb (String.eqb query "")
    then Documents.searchDocuments db' (search_page_options query)
    else [] in
  (mkListPage user results, db').

(** [{ status: 'published', sortBy: 'date', limit: 20 }]. *)
Definition recent_page_options : Documents.SearchOptions :=
  Documents.mkSearchOptions None None None None (Some "published") None
    None None None (Some 20) None (Some Documents.date) None.

(** GET /recent. *)
Definition recent_page (cookie : option string) (now : Z) (db : DB)
  : ListPage * DB :=
  let '(user, db') := Routes.session_user db cookie now in
  (mkListPage user (Documents.searchDocuments db' recent_page_options), db').

End PublicPages.

(* ================================================================== *)
(** ** Shapes of slugs and of search requests *)
(* ================================================================== *)

Module Shapes.

(** Does the text begin with a character of class [p]? *)
Definition starts_with (p : ascii -> bool) (s : string) : bool :=
  match s with
  | EmptyString => false
  | String c _ => p c
  end.

(** No two neighbouring characters are both of class [p]. *)
Fixpoint no_adjacent (p : ascii -> bool) (s : string) : bool :=
  match s with
  | EmptyString => true
  | String c s' => negb (p c && starts_with p s') && no_adjacent p s'
  end.

Definition is_digit (c : ascii) : bool := Documents.in_range 48 57 c.

(** An options bag with another page: [{ ...options, limit, offset }]. *)
Definition with_page (options : Documents.SearchOptions) (lim off : Z)
  : Documents.SearchOptions :=
  Documents.mkSearchOptions
    (Documents.query options) (Documents.contentType options)
    (Documents.category options) (Documents.businessUnit options)
    (Documents.opt_status options) (Documents.owner options)
    (Documents.tags options) (Documents.fromDate options)
    (Documents.toDate options) (Some lim) (Some off)
    (Documents.sortBy options) (Documents.includeArchived options).


(** The order the ORDER BY clause asks for. *)
Definition in_order (options : Documents.SearchOptions) (a b : Document)
  : Prop :=
  Documents.order_le options a b = true.

End Shapes.

(* ================================================================== *)
(** ** Sample data: the seeded store *)
(* ================================================================== *)

Module Samples.

Definition admin : User :=
  mkUser 1 "admin@agewithcare.com" "System Administrator"
    "$2a$10$SZE7geMOPiGjlAIBCEdNsOOR6sfFcMG1s.1DCo3o8DzQdDRYTF7nC"
    "active" None.

Definition former_staff : User :=
  mkUser 2 "former@agewithcare.com" "Former Staff"
    "$2a$10$0000000000000000000000000000000000000000000000000000a"
    "suspended" None.

Definition seed_roles : list Role :=
  [ mkRole 1 "reader"
      ["read_published"; "download_allowed"; "create_bookmarks"];
    mkRole 2 "contributor"
      ["read_published"; "read_draft"; "upload"; "edit_metadata";
       "submit_approval"];
    mkRole 3 "approver"
      ["read_published"; "read_draft"; "upload"; "edit_metadata";
       "approve"; "reject"; "archive"];
    mkRole 4 "administrator"
      ["read_published"; "read_draft"; "upload"; "approve"; "manage_users";
       "manage_roles"; "view_analytics"];
    mkRole 5 "system_owner" ["*"] ].

(** The store after [seedDatabase], with one suspended user added. *)
Definition seed_db : DB :=
  mkDB [admin; former_staff] seed_roles [mkUserRole 1 5] [] [] [] [].

(** A password check that accepts the demo credentials only. *)
Definition demo_verifyPassword (password hash : string) : bool :=
  String.eqb password "Admin123!" && String.eqb hash (password_hash admin).

(** 2026-11-02 10:00:00.000 UTC, 10:30 and 15:00 UTC the same day, and
    00:00:00.000 UTC the next day. *)
Definition t_10h : Z := 1793613600000.
Definition t_10h30 : Z := 1793615400000.
Definition t_15h : Z := 1793631600000.
Definition t_next_day : Z := 1793664000000.

(** The session row [createSession] writes for [admin] at [t_10h]. *)
Definition admin_session : Session :=
  mkSession "s1" 1 "2026-11-02T11:00:00.000Z"
    "2026-11-02 10:00:00" "2026-11-02 10:00:00".

(** A live session that belongs to the suspended user. *)
Definition suspended_session : Session :=
  mkSession "s2" 2 "2026-11-02T11:00:00.000Z"
    "2026-11-02 10:00:00" "2026-11-02 10:00:00".

Definition db_admin_logged_in : DB := set_sessions seed_db [admin_session].

Definition db_with_sessions : DB :=
  set_sessions seed_db [admin_session; suspended_session].

(** A document row with the given id, title, slug and status. *)
Definition doc (i : Z) (t s st : string) : Document :=
  mkDocument i t s None "policy" st 1 "2026-01-01" "2026-01-01 00:00:00"
    1 None None.

(** The store after a first upload titled "Consumer Rights Policy". *)
Definition db_one_policy : DB :=
  set_documents seed_db
    [doc 1 "Consumer Rights Policy" "consumer-rights-policy" "published"].

(** A table in which the first [n] candidates for [baseSlug] are all taken,
    by rows whose ids differ from [documentId]. *)
Definition probe_table (baseSlug : string) (documentId : option Z) (n : nat)
  : DB :=
  set_documents seed_db
    (map (fun j =>
            doc (number_value documentId + 1 + Z.of_nat j)
              baseSlug (Documents.candidate baseSlug (N.of_nat j)) "draft")
         (seq 0 n)).

(** An options bag with nothing set. *)
Definition no_options : Documents.SearchOptions :=
  Documents.mkSearchOptions None None None None None None None None None
    None None None None.

(** The same bag with [limit: 0], as [/api/search?limit=0] produces. *)
Definition limit_zero_options : Documents.SearchOptions :=
  Documents.mkSearchOptions None None None None None None None None None
    (Some 0) None None None.

(** The same bag with [limit: 1]. *)
Definition limit_one_options : Documents.SearchOptions :=
  Documents.mkSearchOptions None None None None None None None None None
    (Some 1) None None None.

Definition draft_doc : Document :=
  doc 1 "Falls Prevention Procedure" "falls-prevention-procedure" "draft".
Definition published_doc : Document :=
  doc 2 "Consumer Rights Policy" "consumer-rights-policy" "published".
Definition archived_doc : Document :=
  doc 3 "Visitor Policy 2019" "visitor-policy-2019" "archived".

(** A table with one draft, one published and one archived document. *)
Definition db_three_statuses : DB :=
  set_documents seed_db [draft_doc; published_doc; archived_doc].

(** A third user, active, who holds the reader role only, with a live
    session. *)
Definition reader_user : User :=
  mkUser 3 "reader@agewithcare.com" "Rita Reader"
    "$2a$10$1111111111111111111111111111111111111111111111111111b"
    "active" None.

Definition reader_session : Session :=
  mkSession "s3" 3 "2026-11-02T11:00:00.000Z"
    "2026-11-02 10:00:00" "2026-11-02 10:00:00".

Definition db_with_reader : DB :=
  mkDB [admin; former_staff; reader_user] seed_roles
    [mkUserRole 1 5; mkUserRole 3 1] [admin_session; reader_session]
    [] [draft_doc; published_doc; archived_doc] [].

(** A tagged table: the published policy carries tag 3. *)
Definition db_tagged : DB :=
  mkDB [admin] seed_roles [mkUserRole 1 5] [] []
    [draft_doc; published_doc; archived_doc] [mkDocumentTag 2 3].

(** [{ status: 'published', category: 1, tags: [3] }]. *)
Definition filtered_options : Documents.SearchOptions :=
  Documents.mkSearchOptions None None (Some 1) None (Some "published") None
    (Some [3]) None None None None None None.

(** The seeded store with one more role and its assignment to [admin]. *)
Definition db_more_roles : DB :=
  mkDB [admin; former_staff] (seed_roles ++ [mkRole 6 "auditor" ["audit"]])
    [mkUserRole 1 5; mkUserRole 1 6] [] [] [] [].

Definition library_with_reader : Routes.Library :=
  Routes.mkLibrary db_with_reader [] [] [] [].

End Samples.

(* ================================================================== *)
(** ** Permission evaluation *)
(* ================================================================== *)

Section PermissionFacts.

Import Auth.

Lemma includes_In (l : list string) (x : string) :
  includes l x = true <-> In x l.
Proof.
  unfold includes. rewrite existsb_exists. split.
  - intros [y [Hy Heq]]. apply String.eqb_eq in Heq. now subst.
  - intros H. exists x. split; [assumption | apply String.eqb_refl].
Qed.

Lemma set_add_In (acc : list string) (p x : string) :
  In x (set_add acc p) <-> In x acc \/ x = p.
Proof.
  unfold set_add. destruct (includes acc p) eqn:E.
  - apply includes_In in E. split; [tauto | intros [H | ->]; assumption].
  - rewrite in_app_iff. simpl. split; intros [H | H]; auto.
    + destruct H as [H | []]; auto.
Qed.

Lemma fold_set_add_In (row acc : list string) (x : string) :
  In x (fold_left set_add row acc) <-> In x acc \/ In x row.
Proof.
  revert acc. induction row as [| p row IH]; intros acc; simpl.
  - tauto.
  - rewrite IH, set_add_In. split; intros H; decompose [or] H; auto.
Qed.

Lemma union_rows_In (rows : list (list string)) (acc : list string)
  (x : string) :
  In x (fold_left (fun a row => fold_left set_add row a) rows acc)
  <-> In x acc \/ exists row, In row rows /\ In x row.
Proof.
  revert acc. induction rows as [| row rows IH]; intros acc; simpl.
  - split; [auto | intros [H | [row [[] _]]]; assumption].
  - rewrite IH, fold_set_add_In. split.
    + intros [[H | H] | [row' [Hr Hx]]]; eauto.
    + intros [H | [row' [[<- | Hr] Hx]]]; eauto.
Qed.

Lemma permission_rows_In (db : DB) (userId : Z) (row : list string) :
  In row (permission_rows db userId)
  <-> exists r, assigned db userId r /\ permissions r = row.
Proof.
  unfold permission_rows, assigned. rewrite in_flat_map. split.
  - intros [r [Hr Hin]]. apply in_map_iff in Hin.
    destruct Hin as [ur [Heq Hur]]. apply filter_In in Hur.
    destruct Hur as [Hur Hc]. apply andb_true_iff in Hc.
    destruct Hc as [H1 H2]. apply Z.eqb_eq in H1, H2.
    exists r. split; [| assumption]. split; [assumption |].
    exists ur. auto.
  - intros [r [[Hr [ur [Hur [Hu Hrole]]]] Heq]]. exists r.
    split; [assumption |]. apply in_map_iff. exists ur.
    split; [assumption |]. apply filter_In. split; [assumption |].
    apply andb_true_iff. split; apply Z.eqb_eq; congruence.
Qed.

Lemma getUserPermissions_In (db : DB) (userId : Z) (p : string) :
  In p (getUserPermissions db userId)
  <-> exists r, assigned db userId r /\ In p (permissions r).
Proof.
  unfold getUserPermissions. rewrite union_rows_In. split.
  - intros [[] | [row [Hrow Hp]]]. apply permission_rows_In in Hrow.
    destruct Hrow as [r [Ha <-]]. eauto.
  - intros [r [Ha Hp]]. right. exists (permissions r). split; [| assumption].
    apply permission_rows_In. eauto.
Qed.

(** C1. [hasPermission db userId perm] answers [true] exactly when some role
    assigned to the user lists [perm] or lists the wildcard [*]; a user all of
    whose assigned roles (if any) have an empty permission list is denied
    every permission. *)
Theorem hasPermission_iff_some_assigned_role (db : DB) (userId : Z) :
  (forall perm,
     hasPermission db userId perm = true
     <-> exists r, assigned db userId r
                   /\ (In perm (permissions r) \/ In "*" (permissions r)))
  /\ ((forall r, assigned db userId r -> permissions r = [])
      -> forall perm, hasPermission db userId perm = false).
Proof.
  assert (Hiff : forall perm,
     hasPermission db userId perm = true
     <-> exists r, assigned db userId r
                   /\ (In perm (permissions r) \/ In "*" (permissions r))).
  { intros perm. unfold hasPermission.
    destruct (includes (getUserPermissions db userId) "*") eqn:Estar.
    - apply includes_In, getUserPermissions_In in Estar.
      destruct Estar as [r [Ha Hs]]. split; [eauto | reflexivity].
    - rewrite includes_In, getUserPermissions_In. split.
      + intros [r [Ha Hp]]. eauto.
      + intros [r [Ha [Hp | Hs]]]; [eauto |].
        assert (Hin : includes (getUserPermissions db userId) "*" = true)
          by (apply includes_In, getUserPermissions_In; eauto).
        congruence. }
  split; [exact Hiff |].
  intros Hempty perm.
  destruct (hasPermission db userId perm) eqn:E; [| reflexivity].
  apply Hiff in E. destruct E as [r [Ha Hp]].
  rewrite (Hempty r Ha) in Hp. destruct Hp as [[] | []].
Qed.

Lemma hasPermission_iff_some_assigned_role_witness :
  hasPermission Samples.seed_db 1 "manage_users" = true
  /\ hasPermission Samples.seed_db 2 "read_published" = false.
Proof.
  destruct (hasPermission_iff_some_assigned_role Samples.seed_db 2)
    as [_ Hdenied].
  split; [vm_compute; reflexivity |].
  apply Hdenied. intros r [_ [ur [Hur [Huser _]]]].
  simpl in Hur. destruct Hur as [<- | []]. simpl in Huser. lia.
Defined.

End PermissionFacts.

(* ================================================================== *)
(** ** Session lifecycle *)
(* ================================================================== *)

Section SessionFacts.

Import Auth.

Lemma find_none_iff {A : Type} (f : A -> bool) (l : list A) :
  find f l = None <-> forall x, In x l -> f x = false.
Proof.
  split; [apply find_none |].
  induction l as [| a l IH]; simpl; intros H; [reflexivity |].
  rewrite (H a (or_introl eq_refl)). apply IH. intros x Hx. apply H. auto.
Qed.

Lemma touch_frame (sessionId : string) (now : Z) (s : Session) :
  session_frame (touch sessionId now s) = session_frame s.
Proof. unfold touch. destruct (String.eqb (sid s) sessionId); reflexivity. Qed.

Lemma updateSessionActivity_frame (db : DB) (sessionId : string) (now : Z) :
  map session_frame (sessions (updateSessionActivity db sessionId now))
  = map session_frame (sessions db).
Proof.
  unfold updateSessionActivity. simpl. rewrite map_map.
  apply map_ext. intros s. apply touch_frame.
Qed.

Lemma getUserFromSession_store (db : DB) (sessionId : string) (now : Z) :
  snd (getUserFromSession db sessionId now) = db
  \/ snd (getUserFromSession db sessionId now)
     = updateSessionActivity db sessionId now.
Proof.
  unfold getUserFromSession.
  destruct (String.eqb sessionId ""); [now left |].
  destruct (getSession db sessionId now) as [s |]; [| now left].
  destruct (active_user_by_id db (user_id s)); [now right | now left].
Qed.

Lemma run_op_frame (db : DB) (op : session_op) :
  map session_frame (sessions (run_op db op))
  = map session_frame (sessions db).
Proof.
  destruct op as [sessionId now | sessionId now | sessionId now]; simpl.
  - reflexivity.
  - destruct (getUserFromSession_store db sessionId now) as [-> | ->];
      [reflexivity | apply updateSessionActivity_frame].
  - apply updateSessionActivity_frame.
Qed.

Lemma run_ops_frame (ops : list session_op) (db : DB) :
  map session_frame (sessions (run_ops db ops))
  = map session_frame (sessions db).
Proof.
  unfold run_ops. revert db.
  induction ops as [| op ops IH]; intros db; simpl; [reflexivity |].
  rewrite IH. apply run_op_frame.
Qed.

(** C8. A session created at [now] is stored with an expiry of exactly
    [now] plus one hour, and whatever lookups and activity updates follow,
    every session row keeps its id, user id, expiry (and creation time):
    only [last_activity] can differ. *)
Theorem session_expiry_fixed_at_creation
  (db db' : DB) (sessionId : string) (userId now : Z) :
  createSession db sessionId userId now = Some (sessionId, db') ->
  (exists s, sessions db' = (sessions db ++ [s])%list
             /\ sid s = sessionId /\ user_id s = userId
             /\ expires_at s = Clock.toISOString (now + 3600000))
  /\ forall ops,
       map session_frame (sessions (run_ops db' ops))
       = map session_frame (sessions db').
Proof.
  unfold createSession. intros H.
  destruct (existsb _ (sessions db)); [discriminate |].
  injection H as <-. split.
  - eexists. simpl. split; [reflexivity |]. simpl. auto.
  - intros ops. apply run_ops_frame.
Qed.

(** C9. When the raw lookup [getSession] finds the session but no user row
    with the session's user id is active, [getUserFromSession] returns null
    and leaves the store, and so the session's [last_activity], untouched. *)
Theorem inactive_user_session_yields_null
  (db : DB) (sessionId : string) (now : Z) (s : Session) :
  getSession db sessionId now = Some s ->
  (forall u, In u (users db) -> uid u = user_id s -> status u <> "active") ->
  getUserFromSession db sessionId now = (None, db).
Proof.
  intros Hs Hinactive. unfold getUserFromSession.
  destruct (String.eqb sessionId ""); [reflexivity |].
  rewrite Hs.
  assert (Hnone : active_user_by_id db (user_id s) = None).
  { unfold active_user_by_id. apply find_none_iff. intros u Hu.
    destruct (uid u =? user_id s) eqn:Eid; [| reflexivity]. simpl.
    apply Z.eqb_eq in Eid. apply String.eqb_neq. now apply Hinactive. }
  now rewrite Hnone.
Qed.

Lemma compare_app_prefix (p a b : string) :
  String.compare (p ++ a) (p ++ b) = String.compare a b.
Proof.
  induction p as [| c p IH]; simpl; [reflexivity |].
  unfold Ascii.compare. now rewrite N.compare_refl.
Qed.

(** Bytewise, a rendering with the [' '] separator sorts before any rendering
    of the same calendar date with the ['T'] separator. *)
Lemma ltb_space_before_T (p a b : string) :
  String.ltb (p ++ " " ++ a) (p ++ "T" ++ b) = true.
Proof. unfold String.ltb. now rewrite compare_app_prefix. Qed.

Lemma same_utc_day_compares_unexpired (now e : Z) :
  Clock.day_of now = Clock.day_of e ->
  String.ltb (Clock.sqlite_datetime now) (Clock.toISOString e) = true.
Proof.
  intros Hday. unfold Clock.sqlite_datetime, Clock.toISOString.
  rewrite Hday. apply ltb_space_before_T.
Qed.

(** On the UTC calendar day of its expiry a session is found by every
    lookup, whatever the time of day. *)
Lemma getSession_same_utc_day
  (db db' : DB) (sessionId : string) (userId now t : Z) :
  createSession db sessionId userId now = Some (sessionId, db') ->
  Clock.day_of t = Clock.day_of (now + one_hour_ms) ->
  getSession db' sessionId t <> None.
Proof.
  unfold createSession. intros H Hday.
  destruct (existsb _ (sessions db)); [discriminate |].
  injection H as <-. unfold getSession. intros Hnone.
  rewrite find_none_iff in Hnone.
  specialize (Hnone (mkSession sessionId userId
                       (Clock.toISOString (now + one_hour_ms))
                       (Clock.sqlite_datetime now)
                       (Clock.sqlite_datetime now))).
  simpl in Hnone. rewrite String.eqb_refl in Hnone.
  rewrite (same_utc_day_compares_unexpired t _ Hday) in Hnone.
  simpl in Hnone. discriminate Hnone.
  apply in_or_app. right. now left.
Qed.

(** A lookup that finds the session of an active user returns the user and
    stamps [last_activity]. *)
Lemma getUserFromSession_active
  (db : DB) (sessionId : string) (now : Z) (s : Session) (u : User) :
  sessionId <> "" ->
  getSession db sessionId now = Some s ->
  active_user_by_id db (user_id s) = Some u ->
  getUserFromSession db sessionId now
  = (Some u, updateSessionActivity db sessionId now).
Proof.
  intros Hne Hs Hu. unfold getUserFromSession.
  apply String.eqb_neq in Hne. now rewrite Hne, Hs, Hu.
Qed.

(** C3. The session created for the administrator at 10:00 UTC expires at
    11:00 UTC; a lookup at 15:00 UTC the same day, four hours after the
    stored expiry, still returns the session and the user, and the session
    only stops being found once the UTC date has changed.  (A lookup at
    10:30 UTC returns the user and stamps [last_activity], as it should.) *)
Theorem expired_session_found_until_utc_midnight :
  createSession Samples.seed_db "s1" 1 Samples.t_10h
  = Some ("s1", Samples.db_admin_logged_in)
  /\ expires_at Samples.admin_session
     = Clock.toISOString (Samples.t_10h + one_hour_ms)
  /\ Samples.t_10h + one_hour_ms < Samples.t_15h
  /\ getSession Samples.db_admin_logged_in "s1" Samples.t_15h
     = Some Samples.admin_session
  /\ fst (getUserFromSession Samples.db_admin_logged_in "s1" Samples.t_15h)
     = Some Samples.admin
  /\ getSession Samples.db_admin_logged_in "s1" Samples.t_next_day = None
  /\ getUserFromSession Samples.db_admin_logged_in "s1" Samples.t_10h30
     = (Some Samples.admin,
        set_sessions Samples.seed_db
          [mkSession "s1" 1 "2026-11-02T11:00:00.000Z"
             "2026-11-02 10:00:00" "2026-11-02 10:30:00"]).
Proof. vm_compute. repeat split; reflexivity. Qed.

Lemma session_expiry_fixed_at_creation_witness :
  createSession Samples.seed_db "s1" 1 Samples.t_10h
  = Some ("s1", Samples.db_admin_logged_in)
  /\ ((exists s, sessions Samples.db_admin_logged_in
                 = (sessions Samples.seed_db ++ [s])%list
                 /\ sid s = "s1" /\ user_id s = 1
                 /\ expires_at s
                    = Clock.toISOString (Samples.t_10h + 3600000))
      /\ forall ops,
           map session_frame
             (sessions (run_ops Samples.db_admin_logged_in ops))
           = map session_frame (sessions Samples.db_admin_logged_in)).
Proof.
  split; [vm_compute; reflexivity |].
  apply (session_expiry_fixed_at_creation Samples.seed_db
           Samples.db_admin_logged_in "s1" 1 Samples.t_10h).
  vm_compute. reflexivity.
Defined.

Lemma inactive_user_session_yields_null_witness :
  getSession Samples.db_with_sessions "s2" Samples.t_10h
  = Some Samples.suspended_session
  /\ getUserFromSession Samples.db_with_sessions "s2" Samples.t_10h
     = (None, Samples.db_with_sessions).
Proof.
  split; [vm_compute; reflexivity |].
  apply (inactive_user_session_yields_null Samples.db_with_sessions "s2"
           Samples.t_10h Samples.suspended_session).
  - vm_compute. reflexivity.
  - simpl. intros u [<- | [<- | []]] Hid; simpl in Hid; [lia |].
    simpl. discriminate.
Defined.

End SessionFacts.

(* ================================================================== *)
(** ** The login handler *)
(* ================================================================== *)

Section LoginFacts.

Import Login.

Variable verifyPassword : string -> string -> bool.

Lemma truthy_string_Some (s : string) :
  s <> "" -> truthy_string (Some s) = true.
Proof. intros H. simpl. apply String.eqb_neq in H. now rewrite H. Qed.

(** With unique e-mail addresses (the column is UNIQUE) the query of the
    handler finds precisely the active user who owns the address. *)
Lemma active_user_by_email_unique (db : DB) (u : User) :
  NoDup (map email (users db)) ->
  In u (users db) -> status u = "active" ->
  active_user_by_email db (email u) = Some u.
Proof.
  unfold active_user_by_email. intros Hnd Hin Hact.
  induction (users db) as [| a l IH]; simpl in *; [contradiction |].
  inversion Hnd as [| x xs Hnotin Hnd' ]; subst.
  destruct Hin as [-> | Hin].
  - now rewrite String.eqb_refl, Hact.
  - destruct (String.eqb (email a) (email u)) eqn:E.
    + apply String.eqb_eq in E. exfalso. apply Hnotin. rewrite E.
      now apply in_map.
    + simpl. now apply IH.
Qed.

Lemma no_active_user_by_email (db : DB) (e : string) :
  (forall u, In u (users db) -> email u = e -> status u <> "active") ->
  active_user_by_email db e = None.
Proof.
  intros H. unfold active_user_by_email. apply find_none_iff. intros u Hu.
  destruct (String.eqb (email u) e) eqn:E; [| reflexivity]. simpl.
  apply String.eqb_eq in E. apply String.eqb_neq. now apply H.
Qed.

Lemma createSession_fresh (db : DB) (sessionId : string) (userId now : Z) :
  (forall s, In s (sessions db) -> sid s <> sessionId) ->
  exists db', Auth.createSession db sessionId userId now
              = Some (sessionId, db')
              /\ users db' = users db
              /\ exists s, In s (sessions db') /\ sid s = sessionId
                           /\ user_id s = userId.
Proof.
  intros Hfresh. unfold Auth.createSession.
  destruct (existsb (fun s => String.eqb (sid s) sessionId) (sessions db))
    eqn:E.
  - apply existsb_exists in E. destruct E as [s [Hs Heq]].
    apply String.eqb_eq in Heq. now elim (Hfresh s Hs).
  - eexists. split; [reflexivity |]. split; [reflexivity |].
    eexists. split; [simpl; apply in_or_app; right; now left |]. now simpl.
Qed.

(** When the drawn session id is already the key of a row, the INSERT
    raises and the handler's [catch] answers 500. *)
Lemma login_session_id_taken
  (sessionId : string) (now : Z) (req : Request) (db : DB)
  (e pw : string) (u : User) :
  body_email req = Some e -> body_password req = Some pw ->
  e <> "" -> pw <> "" ->
  active_user_by_email db e = Some u ->
  verifyPassword pw (password_hash u) = true ->
  existsb (fun s => String.eqb (sid s) sessionId) (sessions db) = true ->
  login verifyPassword sessionId now req db = (json "Login failed" 500, db).
Proof.
  intros He Hpw Hene Hpwne Hu Hok Hdup. unfold login. rewrite He, Hpw.
  rewrite (truthy_string_Some e Hene), (truthy_string_Some pw Hpwne).
  simpl. rewrite Hu, Hok. simpl. unfold Auth.createSession.
  now rewrite Hdup.
Qed.

(** C5 (amended). The login handler answers
    - 400, without cookie, when the e-mail or the password is missing or
      empty;
    - 401, without cookie, when both are present but no active user has the
      e-mail (unknown address, or a user who is not active), or the password
      check fails;
    - a 302 redirect to [/] with the [session_id] cookie holding the new
      session's id when the e-mail is that of an active user, the password
      check succeeds and the session row can be inserted.
    The refusals leave the store as it was. *)
Theorem login_status_by_credentials
  (sessionId : string) (now : Z) (req : Request) (db : DB) :
  let resp := fst (login verifyPassword sessionId now req db) in
  let db' := snd (login verifyPassword sessionId now req db) in
  (truthy_string (body_email req) = false
   \/ truthy_string (body_password req) = false ->
   status_code resp = 400 /\ set_cookie resp = None /\ db' = db)
  /\ (forall e pw,
        body_email req = Some e -> body_password req = Some pw ->
        e <> "" -> pw <> "" ->
        ((forall u, In u (users db) -> email u = e -> status u <> "active") ->
         status_code resp = 401 /\ set_cookie resp = None /\ db' = db)
        /\ (forall u,
              NoDup (map email (users db)) ->
              In u (users db) -> email u = e -> status u = "active" ->
              (verifyPassword pw (password_hash u) = false ->
               status_code resp = 401 /\ set_cookie resp = None /\ db' = db)
              /\ (verifyPassword pw (password_hash u) = true ->
                  (forall s, In s (sessions db) -> sid s <> sessionId) ->
                  status_code resp = 302
                  /\ payload resp = RedirectTo "/"
                  /\ (exists c, set_cookie resp = Some c
                                /\ cookie_name c = "session_id"
                                /\ cookie_value c = sessionId)
                  /\ exists s, In s (sessions db') /\ sid s = sessionId
                               /\ user_id s = uid u))).
Proof.
  cbv zeta. split.
  - intros Hmissing. unfold login.
    assert (Hguard : negb (truthy_string (body_email req))
                     || negb (truthy_string (body_password req)) = true).
    { destruct Hmissing as [-> | ->]; simpl; [reflexivity |].
      apply orb_true_r. }
    rewrite Hguard. simpl. auto.
  - intros e pw He Hpw Hene Hpwne. unfold login. rewrite He, Hpw.
    rewrite (truthy_string_Some e Hene), (truthy_string_Some pw Hpwne).
    simpl. split.
    + intros Hnone. rewrite (no_active_user_by_email db e Hnone). simpl. auto.
    + intros u Hnd Hin Heq Hact. subst e.
      rewrite (active_user_by_email_unique db u Hnd Hin Hact). split.
      * intros Hbad. rewrite Hbad. simpl. auto.
      * intros Hok Hfresh. rewrite Hok. simpl.
        destruct (createSession_fresh db sessionId (uid u) now Hfresh)
          as [db1 [Hcreate [Husers [s [Hs [Hsid Huid]]]]]].
        rewrite Hcreate. simpl. repeat split; try reflexivity.
        -- eexists. split; [reflexivity |]. simpl. auto.
        -- exists s. auto.
Qed.

End LoginFacts.

(* ================================================================== *)
(** ** Slug generation *)
(* ================================================================== *)

Section SlugFacts.

Import Documents.

Lemma trim_start_no_space (s : string) :
  string_forallb no_space s = true -> trim_start s = s.
Proof.
  destruct s as [| c s]; simpl; [reflexivity |].
  unfold no_space. intros H. apply andb_true_iff in H. destruct H as [Hc _].
  apply negb_true_iff in Hc. now rewrite Hc.
Qed.

Lemma trim_end_no_space (s : string) :
  string_forallb no_space s = true -> trim_end s = s.
Proof.
  induction s as [| c s IH]; simpl; [reflexivity |].
  intros H. apply andb_true_iff in H. destruct H as [Hc Hs].
  rewrite (IH Hs). unfold no_space in Hc. apply negb_true_iff in Hc.
  destruct s; [now rewrite Hc | reflexivity].
Qed.

Lemma trim_no_space (s : string) :
  string_forallb no_space s = true -> trim s = s.
Proof.
  intros H. unfold trim. rewrite (trim_start_no_space s H).
  now apply trim_end_no_space.
Qed.

(** Collapsing runs of class [p] into [r] yields only [r] and the characters
    of the input outside [p]. *)
Lemma collapse_runs_forallb (p q : ascii -> bool) (r : ascii) (s : string) :
  q r = true ->
  string_forallb (fun c => p c || q c) s = true ->
  string_forallb q (collapse_runs p r s) = true.
Proof.
  intros Hr. induction s as [| c s IH]; [reflexivity |].
  intros H. simpl in H. apply andb_true_iff in H. destruct H as [Hc Hs].
  specialize (IH Hs). cbn [collapse_runs].
  destruct (p c) eqn:Epc.
  - destruct s as [| c' s']; [simpl; now rewrite Hr |].
    destruct (p c'); [exact IH |].
    cbn [string_forallb]. now rewrite Hr, IH.
  - simpl in Hc. cbn [string_forallb]. now rewrite Hc, IH.
Qed.

Lemma string_forallb_true (p : ascii -> bool) (s : string) :
  (forall c, p c = true) -> string_forallb p s = true.
Proof.
  intros H. induction s as [| c s IH]; simpl; [reflexivity |].
  now rewrite H, IH.
Qed.

Lemma spec_generateSlug_no_space (title : string) :
  string_forallb no_space (spec_generateSlug title) = true.
Proof.
  unfold spec_generateSlug. apply collapse_runs_forallb; [reflexivity |].
  apply string_forallb_true. intros c. unfold no_space.
  now destruct (is_space c).
Qed.

(** After the whitespace runs have become hyphens nothing is left for the
    final [trim()] to remove. *)
Lemma generateSlug_no_space (title : string) :
  string_forallb no_space
    (collapse_runs is_hyphen hyphen (spec_generateSlug title)) = true.
Proof.
  apply collapse_runs_forallb; [reflexivity |].
  pose proof (spec_generateSlug_no_space title) as H.
  induction (spec_generateSlug title) as [| c s IH]; [reflexivity |].
  simpl in *. apply andb_true_iff in H. destruct H as [Hc Hs].
  now rewrite Hc, orb_true_r, (IH Hs).
Qed.

Lemma string_forallb_impl (p q : ascii -> bool) (s : string) :
  (forall c, p c = true -> q c = true) ->
  string_forallb p s = true -> string_forallb q s = true.
Proof.
  intros Himp. induction s as [| c s IH]; simpl; [reflexivity |].
  intros H. apply andb_true_iff in H. destruct H as [Hc Hs].
  now rewrite (Himp c Hc), (IH Hs).
Qed.

(** A lower-cased character that survives the stripping step is whitespace
    or a slug character: no upper-case letter is left. *)
Lemma kept_lower_char (c : ascii) :
  kept (lower_char c) = true ->
  is_space (lower_char c) || slug_char (lower_char c) = true.
Proof.
  destruct c as [[] [] [] [] [] [] [] []]; vm_compute; intros H;
    first [reflexivity | discriminate H].
Qed.

Lemma stripped_forallb (title : string) :
  string_forallb (fun c => is_space c || slug_char c)
    (string_filter kept (toLowerCase title)) = true.
Proof.
  induction title as [| c title IH]; [reflexivity |].
  unfold toLowerCase in *. cbn [string_map string_filter].
  destruct (kept (lower_char c)) eqn:E; [| exact IH].
  cbn [string_forallb]. rewrite IH, andb_true_r.
  exact (kept_lower_char c E).
Qed.

(** Every slug consists of lower-case letters, digits, underscores and
    hyphens only. *)
Lemma generateSlug_alphabet (title : string) :
  string_forallb slug_char (generateSlug title) = true.
Proof.
  unfold generateSlug. fold (spec_generateSlug title).
  rewrite (trim_no_space _ (generateSlug_no_space title)).
  apply collapse_runs_forallb; [reflexivity |].
  apply string_forallb_impl with (p := slug_char);
    [intros c Hc; now rewrite Hc, orb_true_r |].
  unfold spec_generateSlug. apply collapse_runs_forallb; [reflexivity |].
  apply stripped_forallb.
Qed.

(** C6 (amended). [generateSlug] lower-cases the title, strips the characters
    that are neither word characters, whitespace nor hyphens, turns every
    whitespace run into one hyphen, and then also collapses every run of
    hyphens into a single hyphen; the closing [trim()] changes nothing.
    On ["Consumer Rights Policy"] this gives ["consumer-rights-policy"]. *)
Theorem generateSlug_collapses_hyphen_runs :
  (forall title,
     generateSlug title
     = collapse_runs is_hyphen hyphen (spec_generateSlug title))
  /\ generateSlug "Consumer Rights Policy" = "consumer-rights-policy".
Proof.
  split; [| vm_compute; reflexivity].
  intros title. unfold generateSlug. fold (spec_generateSlug title).
  apply trim_no_space, generateSlug_no_space.
Qed.

(** C6 (as stated) fails: on a title with a double hyphen the three named
    steps leave ["work--life-policy"] (or ["worklife-policy"] when hyphens
    count as stripped non-word characters), the code returns
    ["work-life-policy"]. *)
Lemma generateSlug_differs_from_three_steps :
  generateSlug "Work--Life Policy" = "work-life-policy"
  /\ spec_generateSlug "Work--Life Policy" = "work--life-policy"
  /\ spec_generateSlug_strict "Work--Life Policy" = "worklife-policy"
  /\ generateSlug "Work--Life Policy"
     <> spec_generateSlug "Work--Life Policy"
  /\ generateSlug "Work--Life Policy"
     <> spec_generateSlug_strict "Work--Life Policy".
Proof. vm_compute. repeat split; try reflexivity; discriminate. Qed.

End SlugFacts.

(* ================================================================== *)
(** ** Slug uniqueness by sequential probing *)
(* ================================================================== *)

Section ProbeFacts.

Import Documents.

Lemma append_cancel_l (p a b : string) : p ++ a = p ++ b -> a = b.
Proof.
  induction p as [| c p IH]; simpl; intros H; [assumption |].
  injection H as H. now apply IH.
Qed.

Lemma length_append (a b : string) :
  String.length (a ++ b) = (String.length a + String.length b)%nat.
Proof. induction a as [| c a IH]; simpl; [reflexivity | now rewrite IH]. Qed.

Lemma number_to_string_inj (a b : N) :
  number_to_string a = number_to_string b -> a = b.
Proof.
  unfold number_to_string. intros H.
  apply (f_equal NilEmpty.uint_of_string) in H.
  rewrite !NilEmpty.usu in H. injection H as H.
  now apply DecimalN.Unsigned.to_uint_inj.
Qed.

(** From the second candidate on, the sequence is what the loop body
    computes from its counter. *)
Lemma candidate_succ (baseSlug : string) (k : N) :
  candidate baseSlug (k + 1) = baseSlug ++ "-" ++ number_to_string (k + 1).
Proof. unfold candidate. destruct (k + 1)%N eqn:E; [lia | reflexivity]. Qed.

Lemma candidate_pos_neq_base (baseSlug : string) (k : N) :
  k <> 0%N -> candidate baseSlug k <> baseSlug.
Proof.
  intros Hk H. unfold candidate in H. destruct k as [| p]; [easy |].
  apply (f_equal String.length) in H. rewrite length_append in H.
  simpl in H. lia.
Qed.

(** The candidates are pairwise distinct. *)
Lemma candidate_inj (baseSlug : string) (a b : N) :
  candidate baseSlug a = candidate baseSlug b -> a = b.
Proof.
  intros H. destruct a as [| pa], b as [| pb].
  - reflexivity.
  - symmetry in H. now apply candidate_pos_neq_base in H.
  - now apply candidate_pos_neq_base in H.
  - unfold candidate in H. apply append_cancel_l in H.
    simpl in H. injection H as H. now apply number_to_string_inj.
Qed.

Variable db : DB.
Variable baseSlug : string.
Variable documentId : option Z.

Let taken (k : N) : bool := slug_taken db (candidate baseSlug k) documentId.

Let loop (fuel : nat) (k : N) : option string :=
  ensureUniqueSlug_loop fuel db baseSlug documentId
    (candidate baseSlug k) (k + 1).

Lemma loop_step (fuel : nat) (k : N) :
  loop (S fuel) k
  = if negb (taken k) then Some (candidate baseSlug k) else loop fuel (k + 1).
Proof.
  unfold loop, taken. cbn [ensureUniqueSlug_loop].
  now rewrite <- candidate_succ.
Qed.

(** Probing from candidate [k] with a free candidate at distance [n] stops,
    within [n + 1] iterations, at the first free candidate. *)
Lemma loop_finds (n : nat) :
  forall (k : N) (fuel : nat),
    taken (k + N.of_nat n) = false -> (n < fuel)%nat ->
    exists m, (m <= n)%nat
              /\ loop fuel k = Some (candidate baseSlug (k + N.of_nat m))
              /\ taken (k + N.of_nat m) = false
              /\ forall j, (j < m)%nat -> taken (k + N.of_nat j) = true.
Proof.
  induction n as [| n IH]; intros k fuel Hfree Hlt;
    (destruct fuel as [| fuel]; [lia |]); rewrite loop_step.
  - simpl in Hfree. rewrite N.add_0_r in Hfree. rewrite Hfree. simpl.
    exists O. simpl. rewrite N.add_0_r. repeat split; auto. lia.
  - destruct (taken k) eqn:Ek; simpl.
    + replace (k + N.of_nat (S n))%N with (k + 1 + N.of_nat n)%N in Hfree
        by lia.
      destruct (IH (k + 1)%N fuel Hfree ltac:(lia))
        as [m [Hm [Hloop [Hf Hall]]]].
      exists (S m).
      replace (k + N.of_nat (S m))%N with (k + 1 + N.of_nat m)%N by lia.
      repeat split; auto; [lia |].
      intros j Hj. destruct j as [| j].
      * simpl. now rewrite N.add_0_r.
      * replace (k + N.of_nat (S j))%N with (k + 1 + N.of_nat j)%N by lia.
        apply Hall. lia.
    + exists O. simpl. rewrite N.add_0_r. repeat split; auto; lia.
Qed.

Lemma loop_none (fuel : nat) :
  forall k, (forall j, (j < fuel)%nat -> taken (k + N.of_nat j) = true) ->
            loop fuel k = None.
Proof.
  induction fuel as [| fuel IH]; intros k Hall; [reflexivity |].
  rewrite loop_step.
  pose proof (Hall O ltac:(lia)) as H0. simpl in H0.
  rewrite N.add_0_r in H0. rewrite H0. simpl.
  apply IH. intros j Hj.
  replace (k + 1 + N.of_nat j)%N with (k + N.of_nat (S j))%N by lia.
  apply Hall. lia.
Qed.

Lemma loop_fuel_mono (fuel : nat) :
  forall k r fuel', loop fuel k = Some r -> (fuel <= fuel')%nat ->
                    loop fuel' k = Some r.
Proof.
  induction fuel as [| fuel IH]; intros k r fuel' H Hle; [discriminate |].
  destruct fuel' as [| fuel']; [lia |].
  rewrite loop_step in *. destruct (negb (taken k)); [assumption |].
  apply (IH _ _ fuel' H). lia.
Qed.

(** A taken slug is the slug of some row. *)
Lemma slug_taken_row (s : string) :
  slug_taken db s documentId = true ->
  exists d, In d (documents db) /\ slug d = s.
Proof.
  unfold slug_taken. intros H.
  assert (Hex : existsb (fun d => String.eqb (slug d) s) (documents db)
                = true).
  { destruct documentId as [i |]; [| assumption].
    destruct (i =? 0); [assumption |].
    apply existsb_exists in H. destruct H as [d [Hd Hc]].
    apply andb_true_iff in Hc. apply existsb_exists. exists d. tauto. }
  apply existsb_exists in Hex. destruct Hex as [d [Hd Heq]].
  apply String.eqb_eq in Heq. eauto.
Qed.

(** A free slug is the slug of no row, the row being edited apart. *)
Lemma slug_free_absent (s : string) :
  slug_taken db s documentId = false ->
  forall d, In d (documents db) -> slug d = s -> documentId = Some (did d).
Proof.
  unfold slug_taken. intros H d Hd Hs.
  assert (Hslug : String.eqb (slug d) s = true) by now apply String.eqb_eq.
  destruct documentId as [i |].
  - destruct (i =? 0).
    + exfalso. rewrite <- not_true_iff_false in H. apply H.
      apply existsb_exists. eauto.
    + destruct (did d =? i) eqn:Eid.
      * apply Z.eqb_eq in Eid. now subst.
      * exfalso. rewrite <- not_true_iff_false in H. apply H.
        apply existsb_exists. exists d. split; [assumption |].
        now rewrite Hslug, Eid.
  - exfalso. rewrite <- not_true_iff_false in H. apply H.
    apply existsb_exists. eauto.
Qed.

Lemma bounded_search (n : nat) :
  (exists k, (k < n)%nat /\ taken (N.of_nat k) = false)
  \/ (forall k, (k < n)%nat -> taken (N.of_nat k) = true).
Proof.
  induction n as [| n [[k [Hk Hf]] | Hall]].
  - right. intros k Hk. lia.
  - left. exists k. split; [lia | assumption].
  - destruct (taken (N.of_nat n)) eqn:E.
    + right. intros k Hk. destruct (Nat.eq_dec k n) as [-> | Hne];
        [assumption | apply Hall; lia].
    + left. exists n. split; [lia | assumption].
Qed.

(** A table of [n] rows cannot hold all of the first [n + 1] candidates. *)
Lemma free_candidate_exists :
  exists k, (k <= List.length (documents db))%nat
            /\ taken (N.of_nat k) = false.
Proof.
  destruct (bounded_search (S (List.length (documents db))))
    as [[k [Hk Hf]] | Hall].
  - exists k. split; [lia | assumption].
  - exfalso.
    set (cands := map (fun j => candidate baseSlug (N.of_nat j))
                      (seq 0 (S (List.length (documents db))))).
    assert (Hnd : NoDup cands).
    { apply NoDup_map_NoDup_ForallPairs; [| apply seq_NoDup].
      intros x y _ _ H. apply candidate_inj in H. lia. }
    assert (Hincl : incl cands (map slug (documents db))).
    { intros s Hs. apply in_map_iff in Hs. destruct Hs as [j [<- Hj]].
      apply in_seq in Hj.
      destruct (slug_taken_row _ (Hall j ltac:(lia))) as [d [Hd Hslug]].
      apply in_map_iff. eauto. }
    pose proof (NoDup_incl_length Hnd Hincl) as Hlen.
    unfold cands in Hlen. rewrite !length_map, length_seq in Hlen. lia.
Qed.

End ProbeFacts.

Section UniqueSlugFacts.

Import Documents.

Lemma ensureUniqueSlug_as_loop
  (fuel : nat) (db : DB) (baseSlug : string) (documentId : option Z) :
  ensureUniqueSlug fuel db baseSlug documentId
  = ensureUniqueSlug_loop fuel db baseSlug documentId
      (candidate baseSlug 0) (0 + 1).
Proof. reflexivity. Qed.

(** Whenever some candidate is free, the loop returns the first free one as
    soon as it is given enough iterations to reach it. *)
Lemma first_free_returned
  (db : DB) (baseSlug : string) (documentId : option Z) (k : N) :
  slug_taken db (candidate baseSlug k) documentId = false ->
  exists first,
    (first <= k)%N
    /\ slug_taken db (candidate baseSlug first) documentId = false
    /\ (forall j, (j < first)%N ->
                  slug_taken db (candidate baseSlug j) documentId = true)
    /\ forall fuel, (N.to_nat first < fuel)%nat ->
                    ensureUniqueSlug fuel db baseSlug documentId
                    = Some (candidate baseSlug first).
Proof.
  intros Hfree.
  destruct (loop_finds db baseSlug documentId (N.to_nat k) 0%N
              (S (N.to_nat k))) as [m [Hm [_ [Hfm Hall]]]];
    [cbv zeta; simpl; now rewrite N2Nat.id | lia |].
  cbv zeta in Hfm, Hall. simpl in Hfm, Hall.
  exists (N.of_nat m). split; [lia |]. split; [assumption |]. split.
  - intros j Hj. rewrite <- (N2Nat.id j). apply Hall. lia.
  - intros fuel Hfuel. rewrite Nat2N.id in Hfuel.
    destruct (loop_finds db baseSlug documentId m 0%N fuel)
      as [m' [Hm' [Hloop [Hfm' _]]]]; [exact Hfm | exact Hfuel |].
    cbv zeta in Hloop, Hfm'. simpl in Hloop, Hfm'.
    assert (m' = m) as ->.
    { destruct (Nat.eq_dec m' m) as [E | E]; [assumption |].
      rewrite (Hall m') in Hfm' by lia. discriminate. }
    rewrite ensureUniqueSlug_as_loop. exact Hloop.
Qed.

Lemma probe_table_taken
  (baseSlug : string) (documentId : option Z) (n j : nat) :
  (j < n)%nat ->
  slug_taken (Samples.probe_table baseSlug documentId n)
    (candidate baseSlug (N.of_nat j)) documentId = true.
Proof.
  intros Hj.
  set (row := Samples.doc (number_value documentId + 1 + Z.of_nat j)
                baseSlug (candidate baseSlug (N.of_nat j)) "draft").
  assert (Hin : In row (documents (Samples.probe_table baseSlug documentId n))).
  { simpl. apply in_map_iff. exists j. split; [reflexivity |].
    apply in_seq. lia. }
  unfold slug_taken.
  destruct documentId as [i |];
    [destruct (i =? 0) |]; apply existsb_exists; exists row;
    (split; [exact Hin |]); simpl; rewrite String.eqb_refl;
    try reflexivity.
  simpl. apply negb_true_iff, Z.eqb_neq. lia.
Qed.

(** C7. Probing goes through [baseSlug], [baseSlug-1], [baseSlug-2], ...:
    whenever some candidate is free the loop returns, and what it returns is
    the first free candidate (so [baseSlug-1] when only the base slug is
    taken); and no number of iterations suffices for every table. *)
Theorem ensureUniqueSlug_returns_first_free
  (db : DB) (baseSlug : string) (documentId : option Z) :
  (forall k,
     slug_taken db (candidate baseSlug k) documentId = false ->
     exists first,
       (first <= k)%N
       /\ slug_taken db (candidate baseSlug first) documentId = false
       /\ (forall j, (j < first)%N ->
                     slug_taken db (candidate baseSlug j) documentId = true)
       /\ forall fuel, (N.to_nat first < fuel)%nat ->
                       ensureUniqueSlug fuel db baseSlug documentId
                       = Some (candidate baseSlug first))
  /\ (slug_taken db baseSlug documentId = true ->
      slug_taken db (baseSlug ++ "-1") documentId = false ->
      forall fuel, (1 < fuel)%nat ->
                   ensureUniqueSlug fuel db baseSlug documentId
                   = Some (baseSlug ++ "-1"))
  /\ (forall fuel, exists table,
        ensureUniqueSlug fuel table baseSlug documentId = None).
Proof.
  split; [| split].
  - intros k. apply first_free_returned.
  - intros Hbase Hone fuel Hfuel.
    destruct (first_free_returned db baseSlug documentId 1 Hone)
      as [first [Hle [Hfree [_ Hret]]]].
    assert (first = 1%N) as ->.
    { destruct (N.eq_dec first 0) as [E | E]; [| lia].
      subst first. simpl in Hfree. congruence. }
    apply (Hret fuel). simpl. lia.
  - intros fuel. exists (Samples.probe_table baseSlug documentId fuel).
    rewrite ensureUniqueSlug_as_loop.
    apply (loop_none (Samples.probe_table baseSlug documentId fuel)
             baseSlug documentId fuel 0%N).
    intros j Hj. simpl. now apply probe_table_taken.
Qed.

(** C2. [ensureUniqueSlug] returns (within one iteration more than the table
    has rows, and with the same result however many more it is allowed) a
    slug that no row of [documents] carries, the row with id [documentId]
    apart, and given its own result as base slug it returns that result
    unchanged. *)
Theorem ensureUniqueSlug_fresh_and_idempotent
  (db : DB) (baseSlug : string) (documentId : option Z) :
  exists r,
    (forall fuel, (List.length (documents db) < fuel)%nat ->
                  ensureUniqueSlug fuel db baseSlug documentId = Some r)
    /\ (forall fuel r', ensureUniqueSlug fuel db baseSlug documentId = Some r'
                        -> r' = r)
    /\ slug_taken db r documentId = false
    /\ (forall d, In d (documents db) -> slug d = r ->
                  documentId = Some (did d))
    /\ (forall fuel, (0 < fuel)%nat ->
                     ensureUniqueSlug fuel db r documentId = Some r).
Proof.
  destruct (free_candidate_exists db baseSlug documentId) as [k [Hk Hfree]].
  cbv zeta in Hfree.
  destruct (first_free_returned db baseSlug documentId _ Hfree)
    as [first [Hle [Hff [_ Hret]]]].
  exists (candidate baseSlug first). repeat split.
  - intros fuel Hfuel. apply Hret. lia.
  - intros fuel r' Hr'.
    rewrite ensureUniqueSlug_as_loop in Hr'.
    pose proof (loop_fuel_mono db baseSlug documentId fuel 0%N r'
                  (fuel + S (N.to_nat first))%nat Hr' ltac:(lia)) as Hbig.
    change (ensureUniqueSlug (fuel + S (N.to_nat first)) db baseSlug
              documentId = Some r') in Hbig.
    rewrite (Hret (fuel + S (N.to_nat first))%nat ltac:(lia)) in Hbig.
    congruence.
  - exact Hff.
  - now apply slug_free_absent.
  - intros fuel Hfuel. destruct fuel as [| fuel]; [lia |].
    unfold ensureUniqueSlug. cbn [ensureUniqueSlug_loop].
    now rewrite Hff.
Qed.

Lemma ensureUniqueSlug_returns_first_free_witness :
  slug_taken Samples.db_one_policy "consumer-rights-policy" None = true
  /\ slug_taken Samples.db_one_policy "consumer-rights-policy-1" None = false
  /\ ensureUniqueSlug 2 Samples.db_one_policy "consumer-rights-policy" None
     = Some "consumer-rights-policy-1".
Proof.
  split; [reflexivity |]. split; [reflexivity |].
  destruct (ensureUniqueSlug_returns_first_free Samples.db_one_policy
              "consumer-rights-policy" None) as [_ [Hone _]].
  apply Hone; [reflexivity | reflexivity | lia].
Defined.

Lemma ensureUniqueSlug_fresh_and_idempotent_witness :
  exists r,
    ensureUniqueSlug 2 Samples.db_one_policy "consumer-rights-policy" None
    = Some r
    /\ ensureUniqueSlug 1 Samples.db_one_policy r None = Some r.
Proof.
  destruct (ensureUniqueSlug_fresh_and_idempotent Samples.db_one_policy
              "consumer-rights-policy" None) as [r [Hret [_ [_ [_ Hidem]]]]].
  exists r. split; [apply Hret; simpl; lia | apply Hidem; lia].
Defined.

End UniqueSlugFacts.

(* ================================================================== *)
(** ** Login: examples *)
(* ================================================================== *)

Section LoginExamples.

Import Login.

(** C5 (as stated) fails: a request without password is refused with 400,
    not 401. *)
Lemma login_missing_password_answers_400 :
  status_code
    (fst (login Samples.demo_verifyPassword "s1" Samples.t_10h
            (mkRequest (Some "admin@agewithcare.com") None None None)
            Samples.seed_db)) = 400
  /\ status_code
       (fst (login Samples.demo_verifyPassword "s1" Samples.t_10h
               (mkRequest (Some "admin@agewithcare.com") None None None)
               Samples.seed_db)) <> 401.
Proof. vm_compute. split; [reflexivity | discriminate]. Qed.

Lemma login_status_by_credentials_witness :
  status_code
    (fst (login Samples.demo_verifyPassword "s1" Samples.t_10h
            (mkRequest (Some "admin@agewithcare.com") (Some "Admin123!")
               None None)
            Samples.seed_db)) = 302
  /\ exists c,
       set_cookie
         (fst (login Samples.demo_verifyPassword "s1" Samples.t_10h
                 (mkRequest (Some "admin@agewithcare.com")
                    (Some "Admin123!") None None)
                 Samples.seed_db)) = Some c
       /\ cookie_name c = "session_id" /\ cookie_value c = "s1".
Proof.
  destruct (login_status_by_credentials Samples.demo_verifyPassword "s1"
              Samples.t_10h
              (mkRequest (Some "admin@agewithcare.com") (Some "Admin123!")
                 None None)
              Samples.seed_db) as [_ H].
  destruct (H "admin@agewithcare.com" "Admin123!" eq_refl eq_refl
              ltac:(discriminate) ltac:(discriminate)) as [_ Hactive].
  destruct (Hactive Samples.admin) as [_ Hok].
  - simpl. repeat constructor; simpl; intuition discriminate.
  - simpl. now left.
  - reflexivity.
  - reflexivity.
  - destruct Hok as [H302 [_ [Hcookie _]]].
    + vm_compute. reflexivity.
    + simpl. intros s [].
    + split; [exact H302 | exact Hcookie].
Defined.

End LoginExamples.

(* ================================================================== *)
(** ** Search filtering and pagination *)
(* ================================================================== *)

Section SearchFacts.

Import Documents.

Lemma insert_sorted_In (le : Document -> Document -> bool)
  (x y : Document) (l : list Document) :
  In y (insert_sorted le x l) <-> y = x \/ In y l.
Proof.
  induction l as [| a l IH]; simpl.
  - intuition.
  - destruct (le x a); simpl; [intuition |]. rewrite IH. intuition.
Qed.

Lemma order_by_In (le : Document -> Document -> bool)
  (y : Document) (l : list Document) :
  In y (order_by le l) <-> In y l.
Proof.
  unfold order_by. induction l as [| a l IH]; simpl; [tauto |].
  rewrite insert_sorted_In, IH. intuition.
Qed.

Lemma In_firstn {A : Type} (n : nat) (l : list A) (x : A) :
  In x (firstn n l) -> In x l.
Proof.
  intros H. rewrite <- (firstn_skipn n l). apply in_or_app. now left.
Qed.

Lemma In_skipn {A : Type} (n : nat) (l : list A) (x : A) :
  In x (skipn n l) -> In x l.
Proof.
  intros H. rewrite <- (firstn_skipn n l). apply in_or_app. now right.
Qed.

Lemma limit_offset_In (lim off : Z) (rows : list Document) (x : Document) :
  In x (limit_offset lim off rows) -> In x rows.
Proof.
  unfold limit_offset. destruct (lim <? 0); intros H.
  - now apply In_skipn in H.
  - now apply In_firstn, In_skipn in H.
Qed.


Lemma matching_rows_In (db : DB) (options : SearchOptions) (d : Document) :
  In d (matching_rows db options)
  <-> In d (documents db) /\ where_clause db options d = true.
Proof. unfold matching_rows. now rewrite order_by_In, filter_In. Qed.




Lemma effective_offset_value (options : SearchOptions) :
  effective_offset options = number_value (offset options).
Proof.
  unfold effective_offset, truthy_number, number_value.
  destruct (offset options) as [o |]; [| reflexivity].
  destruct (o =? 0) eqn:E; simpl; [| reflexivity].
  apply Z.eqb_eq in E. now subst.
Qed.

Lemma limit_offset_length (lim off : Z) (rows : list Document) :
  0 <= lim ->
  (List.length (limit_offset lim off rows) <= Z.to_nat lim)%nat.
Proof.
  intros H. unfold limit_offset.
  destruct (lim <? 0) eqn:E; [apply Z.ltb_lt in E; lia |].
  apply firstn_le_length.
Qed.

(** C10 (amended). [searchDocuments] returns at most [options.limit] rows
    when that limit is positive and at most 20 rows when it is unset or 0;
    in both cases the result is that many rows of the selection at most,
    taken after skipping the first [options.offset] rows of it (none when
    the offset is unset or not positive). *)
Theorem searchDocuments_page_bounds (db : DB) (options : SearchOptions) :
  (forall l, limit options = Some l -> 0 < l ->
             (List.length (searchDocuments db options) <= Z.to_nat l)%nat
             /\ searchDocuments db options
                = firstn (Z.to_nat l)
                    (skipn (Z.to_nat (number_value (offset options)))
                       (matching_rows db options)))
  /\ (limit options = None \/ limit options = Some 0 ->
      (List.length (searchDocuments db options) <= 20)%nat
      /\ searchDocuments db options
         = firstn 20
             (skipn (Z.to_nat (number_value (offset options)))
                (matching_rows db options))).
Proof.
  unfold searchDocuments. rewrite effective_offset_value. split.
  - intros l Hl Hpos.
    assert (Heff : effective_limit options = l).
    { unfold effective_limit. rewrite Hl. simpl.
      destruct (l =? 0) eqn:E; [apply Z.eqb_eq in E; lia | reflexivity]. }
    rewrite Heff. split; [apply limit_offset_length; lia |].
    unfold limit_offset.
    destruct (l <? 0) eqn:E; [apply Z.ltb_lt in E; lia | reflexivity].
  - intros Hunset.
    assert (Heff : effective_limit options = 20).
    { unfold effective_limit. now destruct Hunset as [-> | ->]. }
    rewrite Heff. split; [apply (limit_offset_length 20); lia | reflexivity].
Qed.

(** C10 (as stated) fails: with [limit: 0] the search still returns a row,
    more than the [options.limit] rows the claim allows. *)
Lemma searchDocuments_limit_zero_returns_rows :
  limit Samples.limit_zero_options = Some 0
  /\ searchDocuments Samples.db_one_policy Samples.limit_zero_options
     = [Samples.doc 1 "Consumer Rights Policy" "consumer-rights-policy"
          "published"]
  /\ ~ (List.length
          (searchDocuments Samples.db_one_policy Samples.limit_zero_options)
        <= Z.to_nat 0)%nat.
Proof. vm_compute. repeat split. lia. Qed.

Lemma searchDocuments_page_bounds_witness :
  (List.length
     (searchDocuments Samples.db_three_statuses
        Samples.limit_one_options) <= 1)%nat
  /\ (List.length
        (searchDocuments Samples.db_three_statuses Samples.no_options)
      <= 20)%nat.
Proof.
  split.
  - destruct (searchDocuments_page_bounds Samples.db_three_statuses
                Samples.limit_one_options) as [Hpos _].
    apply (Hpos 1 eq_refl). lia.
  - destruct (searchDocuments_page_bounds Samples.db_three_statuses
                Samples.no_options) as [_ Hunset].
    apply Hunset. now left.
Defined.

End SearchFacts.

(* ================================================================== *)
(** ** Sessions: deletion, purging and the guards *)
(* ================================================================== *)

Section GuardFacts.

Import Auth AuthGuards.

Lemma find_filter_implied {A : Type} (f g : A -> bool) (l : list A) :
  (forall x, f x = true -> g x = true) ->
  find f (filter g l) = find f l.
Proof.
  intros Himp. induction l as [| a l IH]; simpl; [reflexivity |].
  destruct (g a) eqn:Eg; simpl.
  - now rewrite IH.
  - destruct (f a) eqn:Ef; [| exact IH].
    rewrite (Himp a Ef) in Eg. discriminate.
Qed.

Lemma ltb_asym (a b : string) :
  String.ltb a b = true -> String.ltb b a = false.
Proof.
  unfold String.ltb. rewrite (String.compare_antisym b a).
  now destruct (String.compare a b).
Qed.

Lemma getSession_deleted (db : DB) (sessionId : string) (now : Z) :
  getSession (deleteSession db sessionId) sessionId now = None.
Proof.
  unfold getSession, deleteSession. simpl.
  apply find_none_iff. intros s Hs. apply filter_In in Hs.
  destruct Hs as [_ Hs]. apply negb_true_iff in Hs. now rewrite Hs.
Qed.

Lemma getSession_other_kept (db : DB) (sessionId other : string) (now : Z) :
  other <> sessionId ->
  getSession (deleteSession db sessionId) other now = getSession db other now.
Proof.
  intros Hother. unfold getSession, deleteSession. simpl.
  apply find_filter_implied. intros s Hs.
  apply andb_true_iff in Hs. destruct Hs as [Hs _].
  apply String.eqb_eq in Hs. apply negb_true_iff, String.eqb_neq.
  congruence.
Qed.

Lemma getUserFromSession_deleted (db : DB) (sessionId : string) (now : Z) :
  getUserFromSession (deleteSession db sessionId) sessionId now
  = (None, deleteSession db sessionId).
Proof.
  unfold getUserFromSession. rewrite getSession_deleted.
  now destruct (String.eqb sessionId "").
Qed.

(** X1. Once [deleteSession] has run, no lookup of that session id, raw or
    through [getUserFromSession], succeeds at any later time, while the
    lookups of every other session id answer as before. *)
Theorem deleteSession_invalidates (db : DB) (sessionId : string) :
  (forall now, getSession (deleteSession db sessionId) sessionId now = None)
  /\ (forall now,
        getUserFromSession (deleteSession db sessionId) sessionId now
        = (None, deleteSession db sessionId))
  /\ (forall other now,
        other <> sessionId ->
        getSession (deleteSession db sessionId) other now
        = getSession db other now).
Proof.
  split; [| split].
  - apply getSession_deleted.
  - apply getUserFromSession_deleted.
  - intros other now. apply getSession_other_kept.
Qed.

(** X2. Purging at an instant never changes what a lookup at that instant
    returns, whatever the session id: a row the purge removes is a row the
    lookup already rejects.  The purge touches no other table. *)
Theorem cleanExpiredSessions_preserves_lookups (db : DB) (now : Z) :
  (forall sessionId,
     getSession (cleanExpiredSessions db now) sessionId now
     = getSession db sessionId now)
  /\ (forall sessionId,
        fst (getUserFromSession (cleanExpiredSessions db now) sessionId now)
        = fst (getUserFromSession db sessionId now))
  /\ incl (sessions (cleanExpiredSessions db now)) (sessions db)
  /\ users (cleanExpiredSessions db now) = users db
  /\ audit_logs (cleanExpiredSessions db now) = audit_logs db.
Proof.
  assert (Hget : forall sessionId,
            getSession (cleanExpiredSessions db now) sessionId now
            = getSession db sessionId now).
  { intros sessionId. unfold getSession, cleanExpiredSessions. simpl.
    apply find_filter_implied. intros s Hs.
    apply andb_true_iff in Hs. destruct Hs as [_ Hlt].
    now rewrite (ltb_asym _ _ Hlt). }
  split; [exact Hget | split; [| split; [| split; reflexivity]]].
  - intros sessionId. unfold getUserFromSession. rewrite Hget.
    destruct (String.eqb sessionId ""); [reflexivity |].
    destruct (getSession db sessionId now) as [s |]; [| reflexivity].
    change (active_user_by_id (cleanExpiredSessions db now) (user_id s))
      with (active_user_by_id db (user_id s)).
    now destruct (active_user_by_id db (user_id s)).
  - intros s Hs. unfold cleanExpiredSessions in Hs. simpl in Hs.
    now apply filter_In in Hs.
Qed.

Lemma getSession_found (db : DB) (sessionId : string) (now : Z) (s : Session) :
  getSession db sessionId now = Some s ->
  In s (sessions db) /\ sid s = sessionId
  /\ String.ltb (Clock.sqlite_datetime now) (expires_at s) = true.
Proof.
  unfold getSession. intros H. apply find_some in H.
  destruct H as [Hin Hc]. apply andb_true_iff in Hc.
  destruct Hc as [Hid Hlt]. apply String.eqb_eq in Hid. auto.
Qed.

Lemma active_user_by_id_found (db : DB) (userId : Z) (u : User) :
  active_user_by_id db userId = Some u ->
  In u (users db) /\ uid u = userId /\ status u = "active".
Proof.
  unfold active_user_by_id. intros H. apply find_some in H.
  destruct H as [Hin Hc]. apply andb_true_iff in Hc.
  destruct Hc as [Hid Hst]. apply Z.eqb_eq in Hid.
  apply String.eqb_eq in Hst. auto.
Qed.

(** What a successful [getUserFromSession] tells its caller. *)
Lemma getUserFromSession_some
  (db db' : DB) (sessionId : string) (now : Z) (u : User) :
  getUserFromSession db sessionId now = (Some u, db') ->
  sessionId <> ""
  /\ In u (users db) /\ status u = "active"
  /\ (exists s, getSession db sessionId now = Some s /\ user_id s = uid u)
  /\ db' = updateSessionActivity db sessionId now.
Proof.
  unfold getUserFromSession.
  destruct (String.eqb sessionId "") eqn:Eid; [discriminate |].
  apply String.eqb_neq in Eid.
  destruct (getSession db sessionId now) as [s |] eqn:Es; [| discriminate].
  destruct (active_user_by_id db (user_id s)) as [v |] eqn:Ev;
    [| discriminate].
  intros H. injection H as -> <-.
  apply active_user_by_id_found in Ev. destruct Ev as [Hin [Huid Hst]].
  repeat split; auto. exists s. auto.
Qed.

(** X3. A user returned by [getUserFromSession] is an active row of [users]
    and the owner of a stored session with the given, non-empty id that
    passes the expiry test; the lookup then stamps [last_activity] on the
    rows with that id and leaves every other session row as it was. *)
Theorem getUserFromSession_returns_active_owner
  (db db' : DB) (sessionId : string) (now : Z) (u : User) :
  getUserFromSession db sessionId now = (Some u, db') ->
  sessionId <> ""
  /\ In u (users db) /\ status u = "active"
  /\ (exists s, In s (sessions db) /\ sid s = sessionId
                /\ user_id s = uid u
                /\ String.ltb (Clock.sqlite_datetime now) (expires_at s)
                   = true)
  /\ (forall s, In s (sessions db') -> sid s = sessionId ->
                last_activity s = Clock.sqlite_datetime now)
  /\ (forall s, In s (sessions db) -> sid s <> sessionId ->
                In s (sessions db'))
  /\ List.length (sessions db') = List.length (sessions db).
Proof.
  intros H. apply getUserFromSession_some in H.
  destruct H as [Hne [Hin [Hst [[s [Hs Hu]] ->]]]].
  apply getSession_found in Hs. destruct Hs as [Hsin [Hsid Hlt]].
  split; [assumption |]. split; [assumption |]. split; [assumption |].
  split; [exists s; auto |]. unfold updateSessionActivity. simpl.
  split; [| split].
  - intros s' Hs' Hid. apply in_map_iff in Hs'.
    destruct Hs' as [s0 [<- Hs0]]. unfold touch in *.
    destruct (String.eqb (sid s0) sessionId) eqn:E; [reflexivity |].
    apply String.eqb_neq in E. contradiction.
  - intros s' Hs' Hid. apply in_map_iff. exists s'. split; [| assumption].
    unfold touch. apply String.eqb_neq in Hid. now rewrite Hid.
  - apply length_map.
Qed.

Lemma getUserFromSession_none_store
  (db db' : DB) (sessionId : string) (now : Z) :
  getUserFromSession db sessionId now = (None, db') -> db' = db.
Proof.
  unfold getUserFromSession.
  destruct (String.eqb sessionId ""); [now intros [= <-] |].
  destruct (getSession db sessionId now) as [s |]; [| now intros [= <-]].
  destruct (active_user_by_id db (user_id s)); [discriminate |].
  now intros [= <-].
Qed.


End GuardFacts.

Section PermissionGuardFacts.

Import Auth AuthGuards.

Lemma hasPermission_true_iff (db : DB) (userId : Z) (perm : string) :
  hasPermission db userId perm = true
  <-> exists r, assigned db userId r
                /\ (In perm (permissions r) \/ In "*" (permissions r)).
Proof.
  unfold hasPermission.
  destruct (includes (getUserPermissions db userId) "*") eqn:Estar.
  - apply includes_In, getUserPermissions_In in Estar.
    destruct Estar as [r [Ha Hs]]. split; [eauto | reflexivity].
  - rewrite includes_In, getUserPermissions_In. split.
    + intros [r [Ha Hp]]. eauto.
    + intros [r [Ha [Hp | Hs]]]; [eauto |].
      assert (Hin : includes (getUserPermissions db userId) "*" = true)
        by (apply includes_In, getUserPermissions_In; eauto).
      congruence.
Qed.



Lemma set_add_NoDup (acc : list string) (p : string) :
  NoDup acc -> NoDup (set_add acc p).
Proof.
  intros H. unfold set_add. destruct (includes acc p) eqn:E; [assumption |].
  apply NoDup_app; [assumption | repeat constructor; intros [] |].
  intros x Hx [<- | []].
  apply includes_In in Hx. congruence.
Qed.

Lemma fold_set_add_NoDup (row acc : list string) :
  NoDup acc -> NoDup (fold_left set_add row acc).
Proof.
  revert acc. induction row as [| p row IH]; intros acc H; simpl;
    [assumption |].
  apply IH. now apply set_add_NoDup.
Qed.

(** X6. [getUserPermissions] returns each permission once, and a permission
    is in the returned array exactly when some role assigned to the user
    lists it: the array is the union of the assigned roles' permission
    lists, as a set. *)
Theorem getUserPermissions_is_union (db : DB) (userId : Z) :
  NoDup (getUserPermissions db userId)
  /\ forall p, In p (getUserPermissions db userId)
               <-> exists r, assigned db userId r /\ In p (permissions r).
Proof.
  split; [| intros p; apply getUserPermissions_In].
  unfold getUserPermissions.
  assert (H : forall rows acc, NoDup acc ->
            NoDup (fold_left
                     (fun a row => fold_left set_add row a) rows acc)).
  { induction rows as [| row rows IH]; intros acc Hacc; simpl;
      [assumption |].
    apply IH. now apply fold_set_add_NoDup. }
  apply H. constructor.
Qed.

(** X7. Granting never revokes: when every role and every role assignment
    of a store is still present in another, each permission check that
    succeeded in the first succeeds in the second. *)
Theorem hasPermission_monotone
  (db db' : DB) (userId : Z) (perm : string) :
  incl (roles db) (roles db') ->
  incl (user_roles db) (user_roles db') ->
  hasPermission db userId perm = true ->
  hasPermission db' userId perm = true.
Proof.
  intros Hroles Hur H. apply hasPermission_true_iff in H.
  destruct H as [r [[Hr [ur [Hin [Hu Hrid]]]] Hp]].
  apply hasPermission_true_iff. exists r. split; [| assumption].
  split; [now apply Hroles |]. exists ur. auto.
Qed.

End PermissionGuardFacts.

(* ================================================================== *)
(** ** Session identifiers *)
(* ================================================================== *)

Section SessionIdFacts.

Import AuthGuards.

Lemma append_empty_r (s : string) : s ++ "" = s.
Proof. induction s as [| c s IH]; simpl; [reflexivity | now rewrite IH]. Qed.

Lemma concat_empty_cons (x : string) (xs : list string) :
  String.concat "" (x :: xs) = x ++ String.concat "" xs.
Proof.
  destruct xs as [| y ys]; simpl; [now rewrite append_empty_r | reflexivity].
Qed.

Lemma string_forallb_app (p : ascii -> bool) (a b : string) :
  Documents.string_forallb p (a ++ b)
  = Documents.string_forallb p a && Documents.string_forallb p b.
Proof.
  induction a as [| c a IH]; simpl; [reflexivity |].
  now rewrite IH, andb_assoc.
Qed.

Lemma byte_hex_unhex (b : Byte.byte) (rest : string) :
  unhex (byte_hex b ++ rest) = option_map (cons b) (unhex rest).
Proof. destruct b; reflexivity. Qed.

Lemma byte_hex_length (b : Byte.byte) : String.length (byte_hex b) = 2%nat.
Proof. destruct b; reflexivity. Qed.

Lemma byte_hex_digits (b : Byte.byte) :
  Documents.string_forallb is_hex_digit (byte_hex b) = true.
Proof. destruct b; reflexivity. Qed.

(** X8. A session identifier is two lower-case hexadecimal digits per random
    byte (64 characters for the 32 bytes drawn), and it can be read back
    into the bytes it was made from: different draws give different
    identifiers. *)
Theorem generateSessionId_roundtrip (array : list Byte.byte) :
  unhex (generateSessionId array) = Some array
  /\ String.length (generateSessionId array) = (2 * List.length array)%nat
  /\ Documents.string_forallb is_hex_digit (generateSessionId array) = true
  /\ forall array',
       generateSessionId array = generateSessionId array' -> array = array'.
Proof.
  assert (Hround : forall a, unhex (generateSessionId a) = Some a).
  { induction a as [| b a IH]; [reflexivity |].
    unfold generateSessionId in *. cbn [map].
    now rewrite concat_empty_cons, byte_hex_unhex, IH. }
  split; [apply Hround | split; [| split]].
  - induction array as [| b array IH]; [reflexivity |].
    unfold generateSessionId in *. cbn [map].
    rewrite concat_empty_cons, length_append, byte_hex_length, IH.
    simpl. lia.
  - induction array as [| b array IH]; [reflexivity |].
    unfold generateSessionId in *. cbn [map].
    now rewrite concat_empty_cons, string_forallb_app, byte_hex_digits, IH.
  - intros array' H. apply (f_equal unhex) in H.
    rewrite !Hround in H. now injection H.
Qed.

End SessionIdFacts.

(* ================================================================== *)
(** ** Logging in and out *)
(* ================================================================== *)

Section LogoutFacts.

Import Auth Routes.

(** X9. Logging out always answers with a redirect to [/] that clears the
    [session_id] cookie; afterwards the cookie that was presented resolves
    to no user at any time, the sessions with other ids are found as before,
    and neither the users nor the audit log have changed. *)
Theorem logout_ends_session (cookie : option string) (db : DB) :
  fst (logout cookie db)
  = Login.mkResponse 302 (Login.RedirectTo "/")
      (Some (Login.mkCookie "session_id" "" "/" false false "" 0))
  /\ (forall now,
        session_user (snd (logout cookie db)) cookie now
        = (None, snd (logout cookie db)))
  /\ (forall other now,
        other <> string_value cookie ->
        getSession (snd (logout cookie db)) other now
        = getSession db other now)
  /\ users (snd (logout cookie db)) = users db
  /\ audit_logs (snd (logout cookie db)) = audit_logs db.
Proof.
  unfold logout, session_user. simpl.
  destruct (truthy_string cookie) eqn:Ec.
  - split; [reflexivity |]. split; [| split; [| split; reflexivity]].
    + intros now. apply getUserFromSession_deleted.
    + intros other now. apply getSession_other_kept.
  - repeat split; reflexivity.
Qed.

End LogoutFacts.

Section LoginEffects.

Import Login.

Variable verifyPassword : string -> string -> bool.

Lemma truthy_string_value (o : option string) :
  truthy_string o = true -> exists s, o = Some s /\ s <> "".
Proof.
  destruct o as [s |]; simpl; [| discriminate].
  intros H. apply negb_true_iff, String.eqb_neq in H. eauto.
Qed.

Lemma active_user_by_email_found (db : DB) (e : string) (u : User) :
  active_user_by_email db e = Some u ->
  In u (users db) /\ email u = e /\ status u = "active".
Proof.
  unfold active_user_by_email. intros H. apply find_some in H.
  destruct H as [Hin Hc]. apply andb_true_iff in Hc.
  destruct Hc as [He Hs]. apply String.eqb_eq in He, Hs. auto.
Qed.

(** X10. The login handler answers 302 only for an active user who owns the
    submitted e-mail and whose stored hash the submitted password passed;
    it then has stored exactly one new session row for that user, expiring
    an hour later, stamped the user's [last_login_at], and appended one
    ['login'] row to the audit log.  Every other answer leaves the whole
    store as it was and sets no cookie: a refused login is not audited. *)
Theorem login_effects
  (sessionId : string) (now : Z) (req : Request) (db : DB) :
  let resp := fst (login verifyPassword sessionId now req db) in
  let db' := snd (login verifyPassword sessionId now req db) in
  (status_code resp = 302 ->
   exists u pw,
     In u (users db) /\ status u = "active"
     /\ body_email req = Some (email u)
     /\ body_password req = Some pw
     /\ verifyPassword pw (password_hash u) = true
     /\ set_cookie resp
        = Some (mkCookie "session_id" sessionId "/" true true "Lax" 3600)
     /\ sessions db'
        = (sessions db
             ++ [mkSession sessionId (uid u)
                   (Clock.toISOString (now + 3600000))
                   (Clock.sqlite_datetime now) (Clock.sqlite_datetime now)])%list
     /\ audit_logs db'
        = (audit_logs db
             ++ [mkAuditLog (Some (uid u)) "login" "user" (Some (uid u))
                   success_true_json
                   (or_unknown (header_cf_connecting_ip req))
                   (or_unknown (header_user_agent req))])%list
     /\ users db' = map (mark_login (uid u) now) (users db)
     /\ roles db' = roles db /\ user_roles db' = user_roles db
     /\ documents db' = documents db)
  /\ (status_code resp <> 302 -> db' = db /\ set_cookie resp = None).
Proof.
  cbv zeta. unfold login.
  destruct (negb (truthy_string (body_email req))
            || negb (truthy_string (body_password req))) eqn:Eguard.
  { simpl. split; [intros H; lia | auto]. }
  apply orb_false_iff in Eguard. destruct Eguard as [He Hp].
  apply negb_false_iff in He, Hp.
  destruct (truthy_string_value _ He) as [e [Hemail _]].
  destruct (truthy_string_value _ Hp) as [pw [Hpw _]].
  rewrite Hemail, Hpw. simpl.
  destruct (active_user_by_email db e) as [u |] eqn:Eu.
  2:{ simpl. split; [intros H; lia | auto]. }
  apply active_user_by_email_found in Eu. destruct Eu as [Hin [<- Hact]].
  destruct (verifyPassword pw (password_hash u)) eqn:Ev; simpl.
  2:{ split; [intros H; lia | auto]. }
  unfold Auth.createSession.
  destruct (existsb (fun s => String.eqb (sid s) sessionId) (sessions db)).
  { simpl. split; [intros H; lia | auto]. }
  simpl. split; [| intros H; congruence].
  intros _. exists u, pw. repeat split; auto.
Qed.

End LoginEffects.

(* ================================================================== *)
(** ** The admin pages *)
(* ================================================================== *)

Section AdminFacts.

Import Auth Routes.

Lemma session_user_none_store
  (db db' : DB) (cookie : option string) (now : Z) :
  session_user db cookie now = (None, db') -> db' = db.
Proof.
  unfold session_user. destruct (truthy_string cookie).
  - apply getUserFromSession_none_store.
  - now intros [= <-].
Qed.

Lemma session_user_some
  (db db' : DB) (cookie : option string) (now : Z) (u : User) :
  session_user db cookie now = (Some u, db') ->
  In u (users db) /\ status u = "active"
  /\ db' = updateSessionActivity db (string_value cookie) now.
Proof.
  unfold session_user. destruct (truthy_string cookie); [| discriminate].
  intros H. apply getUserFromSession_some in H. tauto.
Qed.

Lemma holds_permission (db : DB) (userId : Z) (p : string) :
  includes (getUserPermissions db userId) p = true
  <-> exists r, assigned db userId r /\ In p (permissions r).
Proof. now rewrite includes_In, getUserPermissions_In. Qed.

(** X11. Without a session that resolves to an active user, every admin
    route answers with a redirect to [/login] and writes nothing. *)
Theorem admin_requires_session
  (route : AdminRoute) (cookie : option string) (now : Z) (db : DB) :
  fst (session_user db cookie now) = None ->
  admin route cookie now db = (Redirect "/login", db).
Proof.
  intros H. unfold admin.
  destruct (session_user db cookie now) as [user db'] eqn:E.
  simpl in H. subst user.
  now rewrite (session_user_none_store _ _ _ _ E).
Qed.

Lemma admin_requires_session_witness :
  admin AdminUsers None Samples.t_10h Samples.db_with_reader
  = (Redirect "/login", Samples.db_with_reader).
Proof.
  apply (admin_requires_session AdminUsers None Samples.t_10h
           Samples.db_with_reader).
  reflexivity.
Defined.

Lemma any_permission (db : DB) (userId : Z) (ps : list string) :
  existsb (includes (getUserPermissions db userId)) ps = true
  <-> exists r, assigned db userId r
                /\ exists p, In p ps /\ In p (permissions r).
Proof.
  rewrite existsb_exists. split.
  - intros [p [Hp Hin]]. apply holds_permission in Hin.
    destruct Hin as [r [Hr Hpr]]. eauto.
  - intros [r [Hr [p [Hp Hpr]]]]. exists p. split; [assumption |].
    apply holds_permission. eauto.
Qed.

(** X12. For a request whose session resolves to user [u]: the dashboard is
    rendered exactly when a role of [u] lists [*], [manage_users] or
    [upload], and the request is redirected to [/] otherwise; the approvals
    page needs [approve] or [*], the user management page [manage_users] or
    [*], both redirecting to [/admin] otherwise; the upload form is rendered
    for every such user, whatever the roles. *)
Theorem admin_route_access
  (cookie : option string) (now : Z) (db db' : DB) (u : User) :
  session_user db cookie now = (Some u, db') ->
  (fst (admin AdminDashboard cookie now db)
   = (if includes (getUserPermissions db (uid u)) "*"
         || includes (getUserPermissions db (uid u)) "manage_users"
         || includes (getUserPermissions db (uid u)) "upload"
      then Render "Admin Portal" else Redirect "/"))
  /\ (fst (admin AdminDashboard cookie now db) = Render "Admin Portal"
      <-> exists r, assigned db (uid u) r
                    /\ (In "*" (permissions r)
                        \/ In "manage_users" (permissions r)
                        \/ In "upload" (permissions r)))
  /\ fst (admin AdminUpload cookie now db) = Render "Upload Document"
  /\ (fst (admin AdminApprovals cookie now db) = Render "Pending Approvals"
      <-> exists r, assigned db (uid u) r
                    /\ (In "approve" (permissions r)
                        \/ In "*" (permissions r)))
  /\ (fst (admin AdminApprovals cookie now db) = Render "Pending Approvals"
      \/ fst (admin AdminApprovals cookie now db) = Redirect "/admin")
  /\ (fst (admin AdminUsers cookie now db) = Render "User Management"
      <-> exists r, assigned db (uid u) r
                    /\ (In "manage_users" (permissions r)
                        \/ In "*" (permissions r)))
  /\ (fst (admin AdminUsers cookie now db) = Render "User Management"
      \/ fst (admin AdminUsers cookie now db) = Redirect "/admin")
  /\ forall route, snd (admin route cookie now db) = db'.
Proof.
  intros H. unfold admin. rewrite H.
  destruct (session_user_some _ _ _ _ _ H) as [_ [_ ->]]. simpl.
  change (getUserPermissions
            (updateSessionActivity db (string_value cookie) now) (uid u))
    with (getUserPermissions db (uid u)).
  pose proof (any_permission db (uid u) ["*"; "manage_users"; "upload"])
    as Hdash.
  pose proof (any_permission db (uid u) ["approve"; "*"]) as Happr.
  pose proof (any_permission db (uid u) ["manage_users"; "*"]) as Huser.
  simpl in Hdash, Happr, Huser.
  destruct (includes (getUserPermissions db (uid u)) "*");
  destruct (includes (getUserPermissions db (uid u)) "manage_users");
  destruct (includes (getUserPermissions db (uid u)) "upload");
  destruct (includes (getUserPermissions db (uid u)) "approve");
  simpl in *;
  repeat match goal with
         | |- _ /\ _ => split
         | |- forall _ : AdminRoute, _ => reflexivity
         | |- _ = _ => reflexivity
         | |- _ \/ _ => first [left; reflexivity | right; reflexivity]
         end.
  all: split; intros Hx; try reflexivity; try discriminate Hx.
  all: try (destruct (proj1 Hdash eq_refl) as [r [Hr [p [Hp Hpr]]]];
            exists r; split; [exact Hr |];
            intuition (subst; auto); fail).
  all: try (destruct (proj1 Happr eq_refl) as [r [Hr [p [Hp Hpr]]]];
            exists r; split; [exact Hr |];
            intuition (subst; auto); fail).
  all: try (destruct (proj1 Huser eq_refl) as [r [Hr [p [Hp Hpr]]]];
            exists r; split; [exact Hr |];
            intuition (subst; auto); fail).
  all: destruct Hx as [r [Hr Hp]];
    repeat match goal with Hor : _ \/ _ |- _ => destruct Hor end.
  all: match goal with
       | Ha : assigned _ _ ?x, Hin : In ?q (permissions ?x) |- _ =>
           first
             [ assert (Hc : false = true)
                 by (apply (proj2 Hdash); exists x; split; [exact Ha |];
                     exists q; split; [simpl; tauto | exact Hin]);
               discriminate Hc
             | assert (Hc : false = true)
                 by (apply (proj2 Happr); exists x; split; [exact Ha |];
                     exists q; split; [simpl; tauto | exact Hin]);
               discriminate Hc
             | assert (Hc : false = true)
                 by (apply (proj2 Huser); exists x; split; [exact Ha |];
                     exists q; split; [simpl; tauto | exact Hin]);
               discriminate Hc ]
       end.
Qed.

Lemma admin_route_access_witness :
  session_user Samples.db_with_reader (Some "s3") Samples.t_10h30
  = (Some Samples.reader_user,
     updateSessionActivity Samples.db_with_reader "s3" Samples.t_10h30)
  /\ fst (admin AdminDashboard (Some "s3") Samples.t_10h30
            Samples.db_with_reader) = Redirect "/"
  /\ fst (admin AdminUpload (Some "s3") Samples.t_10h30
            Samples.db_with_reader) = Render "Upload Document".
Proof.
  assert (H : session_user Samples.db_with_reader (Some "s3") Samples.t_10h30
              = (Some Samples.reader_user,
                 updateSessionActivity Samples.db_with_reader "s3"
                   Samples.t_10h30))
    by (vm_compute; reflexivity).
  split; [exact H |].
  destruct (admin_route_access (Some "s3") Samples.t_10h30
              Samples.db_with_reader _ Samples.reader_user H)
    as [Hdash [_ [Hupload _]]].
  split; [rewrite Hdash; vm_compute; reflexivity | exact Hupload].
Defined.

End AdminFacts.

(* ================================================================== *)
(** ** The search API *)
(* ================================================================== *)

Section SearchApiFacts.

Import Documents Routes.

Variable parseInt : string -> option Z.

Lemma or_default_truthy (x : option string) (d : string) :
  d <> "" -> truthy_string (Some (or_default x d)) = true.
Proof.
  intros Hd. unfold or_default.
  destruct (truthy_string x) eqn:E.
  - destruct x as [s |]; simpl in *; [assumption | discriminate].
  - simpl. now apply negb_true_iff, String.eqb_neq.
Qed.

(** X13. Every row [GET /api/search] returns is a row of [documents] whose
    status is the [status] parameter, or ['published'] when the parameter is
    absent or empty: without an explicit request no draft, pending or
    archived document leaves through the API.  [total] is the number of
    rows returned. *)
Theorem api_search_status (req : SearchRequest) (db : DB) :
  (forall d, In d (results (api_search parseInt req db)) ->
             In d (documents db)
             /\ doc_status d = or_default (param_status req) "published")
  /\ (truthy_string (param_status req) = false ->
      forall d, In d (results (api_search parseInt req db)) ->
                doc_status d = "published")
  /\ total (api_search parseInt req db)
     = List.length (results (api_search parseInt req db)).
Proof.
  assert (Hrows : forall d, In d (results (api_search parseInt req db)) ->
            In d (documents db)
            /\ doc_status d = or_default (param_status req) "published").
  { intros d Hd. unfold api_search in Hd. simpl in Hd.
    unfold searchDocuments in Hd.
    apply limit_offset_In, matching_rows_In in Hd.
    destruct Hd as [Hin Hw]. split; [assumption |].
    unfold where_clause in Hw. apply andb_true_iff in Hw.
    destruct Hw as [_ Hst]. unfold status_condition in Hst.
    change (opt_status (api_search_options parseInt req))
      with (Some (or_default (param_status req) "published")) in Hst.
    rewrite or_default_truthy in Hst by discriminate.
    now apply String.eqb_eq in Hst. }
  split; [exact Hrows | split; [| reflexivity]].
  intros Hno d Hd. destruct (Hrows d Hd) as [_ Hst].
  unfold or_default in Hst. now rewrite Hno in Hst.
Qed.

End SearchApiFacts.

(* ================================================================== *)
(** ** The document page *)
(* ================================================================== *)

Section DocumentPageFacts.

Import Routes.

Lemma session_user_documents
  (db : DB) (cookie : option string) (now : Z) :
  documents (snd (session_user db cookie now)) = documents db
  /\ document_tags (snd (session_user db cookie now)) = document_tags db.
Proof.
  destruct (session_user db cookie now) as [user db'] eqn:E.
  destruct user as [u |]; simpl.
  - destruct (session_user_some _ _ _ _ _ E) as [_ [_ ->]]. now split.
  - now rewrite (session_user_none_store _ _ _ _ E).
Qed.

Lemma getDocumentBySlug_doc (lib : Library) (s : string) :
  option_map detail_doc (getDocumentBySlug lib s)
  = find (fun d => String.eqb (slug d) s) (documents (lib_db lib)).
Proof.
  unfold getDocumentBySlug.
  now destruct (find (fun d => String.eqb (slug d) s)
                  (documents (lib_db lib))).
Qed.

(** X14. The document page shows a document only if its slug is the one
    requested and it is published or the request carries a session that
    resolves to an active user: a visitor without session never sees a
    draft, pending or archived document, and a signed-in user sees any.
    The answer is a 404 exactly when no document has the slug or the
    document is unpublished and nobody is signed in.  A view row is recorded
    exactly when the page is shown to a signed-in user. *)
Theorem document_page_visibility
  (s : string) (cookie : option string) (now : Z) (lib : Library) :
  (forall doc related,
     fst (document_page s cookie now lib) = PageDocument doc related ->
     In (detail_doc doc) (documents (lib_db lib))
     /\ slug (detail_doc doc) = s
     /\ (doc_status (detail_doc doc) = "published"
         \/ exists u, fst (session_user (lib_db lib) cookie now) = Some u)
     /\ lib_views (snd (document_page s cookie now lib))
        = match fst (session_user (lib_db lib) cookie now) with
          | Some u =>
              (lib_views lib
                 ++ [mkDocumentView (did (detail_doc doc)) (uid u)])%list
          | None => lib_views lib
          end)
  /\ (fst (document_page s cookie now lib) = PageNotFound ->
      lib_views (snd (document_page s cookie now lib)) = lib_views lib)
  /\ (fst (document_page s cookie now lib) = PageNotFound
      <-> find (fun d => String.eqb (slug d) s) (documents (lib_db lib))
          = None
          \/ exists d,
               find (fun d => String.eqb (slug d) s)
                    (documents (lib_db lib)) = Some d
               /\ doc_status d <> "published"
               /\ fst (session_user (lib_db lib) cookie now) = None).
Proof.
  unfold document_page.
  pose proof (session_user_documents (lib_db lib) cookie now) as [Hdocs _].
  destruct (session_user (lib_db lib) cookie now) as [user db'] eqn:Eu.
  simpl in Hdocs. simpl fst.
  pose proof (getDocumentBySlug_doc (set_lib_db lib db') s) as Hfind.
  simpl in Hfind. rewrite Hdocs in Hfind. rewrite <- Hfind.
  destruct (getDocumentBySlug (set_lib_db lib db') s) as [doc |] eqn:Ed;
    simpl in Hfind; simpl option_map.
  - symmetry in Hfind. apply find_some in Hfind.
    destruct Hfind as [Hin Hslug]. apply String.eqb_eq in Hslug.
    destruct (String.eqb (doc_status (detail_doc doc)) "published") eqn:Est;
      destruct user as [u |]; simpl.
    + apply String.eqb_eq in Est.
      split; [| split; [discriminate |]].
      * intros doc' rel [= <- <-]. auto.
      * split; [discriminate |].
        intros [Hn | [d [_ [_ Hn]]]]; discriminate.
    + apply String.eqb_eq in Est.
      split; [| split; [discriminate |]].
      * intros doc' rel [= <- <-]. auto.
      * split; [discriminate |].
        intros [Hn | [d [[= <-] [Hnp _]]]]; [discriminate | contradiction].
    + split; [| split; [discriminate |]].
      * intros doc' rel [= <- <-]. repeat split; eauto.
      * split; [discriminate |].
        intros [Hn | [d [_ [_ Hn]]]]; discriminate.
    + apply String.eqb_neq in Est.
      split; [discriminate | split; [reflexivity |]].
      split; [| reflexivity]. intros _. right. exists (detail_doc doc). auto.
  - split; [discriminate | split; [reflexivity |]].
    split; [now left | reflexivity].
Qed.

End DocumentPageFacts.

Section DocumentLookupFacts.

Import Routes.

Lemma find_by_unique_key {A : Type} (key : A -> string) (l : list A) (d : A) :
  NoDup (map key l) -> In d l ->
  find (fun x => String.eqb (key x) (key d)) l = Some d.
Proof.
  induction l as [| a l IH]; simpl; intros Hnd Hin; [contradiction |].
  inversion Hnd as [| x xs Hnotin Hnd']; subst.
  destruct Hin as [-> | Hin]; [now rewrite String.eqb_refl |].
  destruct (String.eqb (key a) (key d)) eqn:E; [| now apply IH].
  apply String.eqb_eq in E. exfalso. apply Hnotin. rewrite E.
  now apply in_map.
Qed.

(** X15. [getDocumentBySlug] answers null exactly for the slugs no document
    carries; with pairwise distinct slugs every stored document is what the
    lookup of its own slug returns.  The tags returned are those the
    [document_tags] table links to the document, and the version returned,
    if any, is a version of this document flagged current. *)
Theorem getDocumentBySlug_roundtrip (lib : Library) :
  (forall s, getDocumentBySlug lib s = None
             <-> forall d, In d (documents (lib_db lib)) -> slug d <> s)
  /\ (NoDup (map slug (documents (lib_db lib))) ->
      forall d, In d (documents (lib_db lib)) ->
                option_map detail_doc (getDocumentBySlug lib (slug d))
                = Some d)
  /\ (forall s detail,
        getDocumentBySlug lib s = Some detail ->
        slug (detail_doc detail) = s
        /\ (forall t, In t (detail_tags detail)
                      <-> In t (lib_tags lib)
                          /\ exists dt,
                               In dt (document_tags (lib_db lib))
                               /\ dt_tag_id dt = tag_id t
                               /\ dt_document_id dt = did (detail_doc detail))
        /\ (forall v, currentVersion detail = Some v ->
                      In v (lib_versions lib)
                      /\ dv_document_id v = did (detail_doc detail)
                      /\ is_current v = true)).
Proof.
  split; [| split].
  - intros s. unfold getDocumentBySlug.
    destruct (find (fun d => String.eqb (slug d) s) (documents (lib_db lib)))
      as [doc |] eqn:E.
    + split; [discriminate |]. intros Hall. apply find_some in E.
      destruct E as [Hin Hs]. apply String.eqb_eq in Hs.
      now elim (Hall doc Hin).
    + split; [| reflexivity]. intros _ d Hd Hs.
      pose proof (find_none _ _ E d Hd) as Hf. simpl in Hf.
      apply String.eqb_neq in Hf. contradiction.
  - intros Hnd d Hd. rewrite getDocumentBySlug_doc.
    now apply find_by_unique_key.
  - intros s detail H. unfold getDocumentBySlug in H.
    destruct (find (fun d => String.eqb (slug d) s) (documents (lib_db lib)))
      as [doc |] eqn:E; [| discriminate].
    injection H as <-. simpl. apply find_some in E.
    destruct E as [_ Hs]. apply String.eqb_eq in Hs.
    split; [assumption | split].
    + intros t. rewrite in_flat_map. split.
      * intros [t' [Ht Hin]]. apply in_map_iff in Hin.
        destruct Hin as [dt [<- Hdt]]. apply filter_In in Hdt.
        destruct Hdt as [Hdt Hc]. apply andb_true_iff in Hc.
        destruct Hc as [H1 H2]. apply Z.eqb_eq in H1, H2.
        split; [assumption |]. exists dt. auto.
      * intros [Ht [dt [Hdt [H1 H2]]]]. exists t. split; [assumption |].
        apply in_map_iff. exists dt. split; [reflexivity |].
        apply filter_In. split; [assumption |].
        apply andb_true_iff. split; apply Z.eqb_eq; congruence.
    + intros v Hv. apply find_some in Hv. destruct Hv as [Hin Hc].
      apply andb_true_iff in Hc. destruct Hc as [H1 H2].
      apply Z.eqb_eq in H1. auto.
Qed.

Lemma insert_version_In (x y : DocumentVersion) (l : list DocumentVersion) :
  In y (insert_version x l) <-> y = x \/ In y l.
Proof.
  induction l as [| a l IH]; simpl; [intuition |].
  destruct (version_number a <=? version_number x); simpl; [intuition |].
  rewrite IH. intuition.
Qed.

Lemma insert_version_sorted (x : DocumentVersion) (l : list DocumentVersion) :
  Sorted newer_first l -> Sorted newer_first (insert_version x l).
Proof.
  induction l as [| a l IH]; simpl; intros Hs.
  - repeat constructor.
  - destruct (version_number a <=? version_number x) eqn:E.
    + constructor; [assumption |]. constructor. unfold newer_first.
      now apply Z.leb_le.
    + apply Z.leb_gt in E. inversion Hs as [| ? ? Hs' Hhd]; subst.
      constructor; [now apply IH |].
      destruct l as [| b l']; simpl.
      * constructor. unfold newer_first. lia.
      * destruct (version_number b <=? version_number x).
        -- constructor. unfold newer_first. lia.
        -- inversion Hhd; subst. now constructor.
Qed.

Lemma insert_version_length (x : DocumentVersion) (l : list DocumentVersion) :
  List.length (insert_version x l) = S (List.length l).
Proof.
  induction l as [| a l IH]; simpl; [reflexivity |].
  destruct (version_number a <=? version_number x); simpl;
    [reflexivity | now rewrite IH].
Qed.

Lemma sort_versions_In (l : list DocumentVersion) (v : DocumentVersion) :
  In v (fold_right insert_version [] l) <-> In v l.
Proof.
  induction l as [| a l IH]; simpl; [tauto |].
  rewrite insert_version_In, IH. intuition.
Qed.

Lemma sort_versions_sorted (l : list DocumentVersion) :
  Sorted newer_first (fold_right insert_version [] l).
Proof.
  induction l as [| a l IH]; simpl; [constructor |].
  now apply insert_version_sorted.
Qed.

Lemma sort_versions_length (l : list DocumentVersion) :
  List.length (fold_right insert_version [] l) = List.length l.
Proof.
  induction l as [| a l IH]; simpl; [reflexivity |].
  now rewrite insert_version_length, IH.
Qed.

(** X16. [getDocumentVersions] returns precisely the stored versions of the
    document, each as often as stored, ordered from the highest version
    number down. *)
Theorem getDocumentVersions_sorted (lib : Library) (documentId : Z) :
  (forall v, In v (getDocumentVersions lib documentId)
             <-> In v (lib_versions lib) /\ dv_document_id v = documentId)
  /\ Sorted newer_first (getDocumentVersions lib documentId)
  /\ List.length (getDocumentVersions lib documentId)
     = List.length
         (filter (fun v => dv_document_id v =? documentId)
                 (lib_versions lib)).
Proof.
  unfold getDocumentVersions. split; [| split].
  - intros v. rewrite sort_versions_In, filter_In.
    now rewrite Z.eqb_eq.
  - apply sort_versions_sorted.
  - apply sort_versions_length.
Qed.

End DocumentLookupFacts.

(* ================================================================== *)
(** ** File storage and classification *)
(* ================================================================== *)

Section FileFacts.

Import Files.

Lemma string_of_uint_no_slash (d : Decimal.uint) :
  Documents.string_forallb not_slash (NilEmpty.string_of_uint d) = true.
Proof. induction d; simpl; auto. Qed.

Lemma integer_to_string_no_slash (n : Z) :
  Documents.string_forallb not_slash (integer_to_string n) = true.
Proof.
  unfold integer_to_string. destruct (Z.to_int n) as [d | d]; simpl;
    apply string_of_uint_no_slash.
Qed.

Lemma integer_to_string_inj (a b : Z) :
  integer_to_string a = integer_to_string b -> a = b.
Proof.
  unfold integer_to_string. intros H.
  apply (f_equal NilEmpty.int_of_string) in H.
  rewrite !NilEmpty.isi in H. injection H as H.
  now apply DecimalZ.to_int_inj.
Qed.

(** Two texts that are free of [/] and are each followed by a [/] end at the
    same place. *)
Lemma split_at_slash (a a' r r' : string) :
  Documents.string_forallb not_slash a = true ->
  Documents.string_forallb not_slash a' = true ->
  a ++ String "/" r = a' ++ String "/" r' ->
  a = a' /\ r = r'.
Proof.
  revert a'. induction a as [| c a IH]; intros [| c' a'] Ha Ha' H;
    simpl in *.
  - injection H as H. auto.
  - injection H as Hc H. subst c'. discriminate.
  - injection H as Hc H. subst c. discriminate.
  - injection H as Hc H. subst c'.
    apply andb_true_iff in Ha, Ha'.
    destruct (IH a' (proj2 Ha) (proj2 Ha') H) as [-> ->]. auto.
Qed.

(** The storage key determines the document, the version and the file
    name. *)
Lemma file_key_of_inj (d d' v v' : Z) (n n' : string) :
  file_key_of d v n = file_key_of d' v' n' -> d = d' /\ v = v' /\ n = n'.
Proof.
  unfold file_key_of. intros H. apply append_cancel_l in H.
  change ("/v" ++ integer_to_string v ++ "/" ++ n)
    with (String "/" ("v" ++ integer_to_string v ++ "/" ++ n)) in H.
  change ("/v" ++ integer_to_string v' ++ "/" ++ n')
    with (String "/" ("v" ++ integer_to_string v' ++ "/" ++ n')) in H.
  apply split_at_slash in H; try apply integer_to_string_no_slash.
  destruct H as [Hd H]. apply integer_to_string_inj in Hd.
  simpl in H. injection H as H.
  change ("/" ++ n) with (String "/" n) in H.
  change ("/" ++ n') with (String "/" n') in H.
  apply split_at_slash in H; try apply integer_to_string_no_slash.
  destruct H as [Hv Hn]. apply integer_to_string_inj in Hv. auto.
Qed.

Lemma bucket_get_put_same (storage : Bucket) (key : string) (o : R2Object) :
  bucket_get (bucket_put storage key o) key = Some o.
Proof. unfold bucket_get, bucket_put. simpl. now rewrite String.eqb_refl. Qed.

Lemma bucket_get_delete_other (storage : Bucket) (key other : string) :
  other <> key ->
  bucket_get (bucket_delete storage key) other = bucket_get storage other.
Proof.
  intros Hne. unfold bucket_get, bucket_delete. f_equal.
  apply find_filter_implied. intros kv Hkv.
  apply String.eqb_eq in Hkv. apply negb_true_iff, String.eqb_neq.
  congruence.
Qed.

Lemma bucket_get_put_other
  (storage : Bucket) (key other : string) (o : R2Object) :
  other <> key ->
  bucket_get (bucket_put storage key o) other = bucket_get storage other.
Proof.
  intros Hne. unfold bucket_get at 1. unfold bucket_put. cbn [find fst].
  destruct (String.eqb key other) eqn:E.
  - apply String.eqb_eq in E. congruence.
  - now apply bucket_get_delete_other.
Qed.

Lemma bucket_get_delete_same (storage : Bucket) (key : string) :
  bucket_get (bucket_delete storage key) key = None.
Proof.
  unfold bucket_get, bucket_delete.
  replace (find (fun kv => String.eqb (fst kv) key)
             (filter (fun kv => negb (String.eqb (fst kv) key)) storage))
    with (@None (string * R2Object)); [reflexivity |].
  symmetry. apply find_none_iff. intros kv Hkv. apply filter_In in Hkv.
  destruct Hkv as [_ Hkv]. now apply negb_true_iff in Hkv.
Qed.

(** X17. [storeFile] puts the file's bytes and type under its key, where
    [getFile] finds them; the object of any other document, version or file
    name is what [getFile] returned before, since distinct triples have
    distinct keys; and after [deleteFile] the key holds nothing while the
    other keys keep their objects. *)
Theorem storeFile_roundtrip
  (storage : Bucket) (file : File) (documentId versionNumber : Z) :
  fst (storeFile storage file documentId versionNumber)
  = file_key_of documentId versionNumber (file_name file)
  /\ getFile (snd (storeFile storage file documentId versionNumber))
       (fst (storeFile storage file documentId versionNumber))
     = Some (mkR2Object (file_bytes file) (file_type file))
  /\ (forall d v n,
        (d, v, n) <> (documentId, versionNumber, file_name file) ->
        getFile (snd (storeFile storage file documentId versionNumber))
          (file_key_of d v n)
        = getFile storage (file_key_of d v n))
  /\ getFile
       (deleteFile (snd (storeFile storage file documentId versionNumber))
          (fst (storeFile storage file documentId versionNumber)))
       (fst (storeFile storage file documentId versionNumber)) = None
  /\ (forall other,
        other <> fst (storeFile storage file documentId versionNumber) ->
        getFile
          (deleteFile (snd (storeFile storage file documentId versionNumber))
             (fst (storeFile storage file documentId versionNumber)))
          other
        = getFile storage other).
Proof.
  unfold storeFile, getFile, deleteFile. cbn [fst snd].
  split; [reflexivity |]. split; [apply bucket_get_put_same |].
  split; [| split].
  - intros d v n Hne. apply bucket_get_put_other.
    intros Heq. apply file_key_of_inj in Heq.
    destruct Heq as [-> [-> ->]]. now apply Hne.
  - apply bucket_get_delete_same.
  - intros other Hne. rewrite bucket_get_delete_other by assumption.
    now apply bucket_get_put_other.
Qed.

Lemma lower_char_idempotent (c : ascii) :
  Documents.lower_char (Documents.lower_char c) = Documents.lower_char c.
Proof. destruct c as [[] [] [] [] [] [] [] []]; reflexivity. Qed.

Lemma toLowerCase_idempotent (s : string) :
  Documents.toLowerCase (Documents.toLowerCase s) = Documents.toLowerCase s.
Proof.
  unfold Documents.toLowerCase. induction s as [| c s IH]; simpl;
    [reflexivity | now rewrite lower_char_idempotent, IH].
Qed.

Lemma toLowerCase_app (a b : string) :
  Documents.toLowerCase (a ++ b)
  = Documents.toLowerCase a ++ Documents.toLowerCase b.
Proof.
  unfold Documents.toLowerCase. induction a as [| c a IH]; simpl;
    [reflexivity | now rewrite IH].
Qed.

(** X18. [autoClassifyContentType] ignores letter case, in the title and in
    the content alike; it only returns content types of the schema, and
    among those never ['template']. *)
Theorem autoClassifyContentType_case_insensitive
  (title : string) (content : option string) :
  autoClassifyContentType (Documents.toLowerCase title)
    (option_map Documents.toLowerCase content)
  = autoClassifyContentType title content
  /\ In (autoClassifyContentType title content)
       ["policy"; "procedure"; "work_instruction"; "form"; "guideline";
        "register"; "checklist"; "faq"]
  /\ autoClassifyContentType title content <> "template".
Proof.
  assert (Hrange : In (autoClassifyContentType title content)
            ["policy"; "procedure"; "work_instruction"; "form"; "guideline";
             "register"; "checklist"; "faq"]).
  { unfold autoClassifyContentType.
    repeat match goal with
           | |- In (if ?b then _ else _) _ => destruct b
           end; simpl; tauto. }
  split; [| split; [exact Hrange |]].
  - unfold autoClassifyContentType.
    rewrite toLowerCase_idempotent.
    replace (Documents.toLowerCase
               (Documents.toLowerCase title ++ " "
                  ++ string_value (option_map Documents.toLowerCase content)))
      with (Documents.toLowerCase
              (Documents.toLowerCase title ++ " " ++ string_value content));
      [reflexivity |].
    rewrite !toLowerCase_app, toLowerCase_idempotent.
    destruct content as [c |]; simpl;
      [now rewrite toLowerCase_idempotent | reflexivity].
  - intros Heq. rewrite Heq in Hrange. simpl in Hrange.
    intuition discriminate.
Qed.

End FileFacts.

(* ================================================================== *)
(** ** The shape of slugs *)
(* ================================================================== *)

Section SlugShapeFacts.

Import Documents Shapes.

Lemma collapse_runs_starts_false (p : ascii -> bool) (r : ascii) (s : string) :
  starts_with p s = false -> starts_with p (collapse_runs p r s) = false.
Proof.
  destruct s as [| c s]; simpl; [auto |]. intros H. now rewrite H.
Qed.

Lemma collapse_runs_no_adjacent (p : ascii -> bool) (r : ascii) (s : string) :
  no_adjacent p (collapse_runs p r s) = true.
Proof.
  induction s as [| c s IH]; [reflexivity |]. cbn [collapse_runs].
  destruct (p c) eqn:Ec.
  - destruct s as [| c' s']; [simpl; now rewrite andb_false_r |].
    destruct (p c') eqn:Ec'; [exact IH |].
    cbn [no_adjacent]. rewrite IH, andb_true_r.
    rewrite collapse_runs_starts_false by exact Ec'.
    now rewrite andb_false_r.
  - cbn [no_adjacent]. now rewrite Ec, IH.
Qed.

(** A text without neighbouring [p]-characters, whose [p]-characters are all
    [r], is left alone by the collapsing of [p]-runs into [r]. *)
Lemma collapse_runs_fixed (p : ascii -> bool) (r : ascii) (s : string) :
  (forall c, p c = true -> c = r) ->
  no_adjacent p s = true -> collapse_runs p r s = s.
Proof.
  intros Hr. induction s as [| c s IH]; [reflexivity |].
  cbn [no_adjacent collapse_runs]. intros H.
  apply andb_true_iff in H. destruct H as [Hadj Hs].
  specialize (IH Hs). destruct (p c) eqn:Ec.
  - rewrite (Hr c Ec). destruct s as [| c' s']; [reflexivity |].
    simpl in Hadj. destruct (p c'); [discriminate |]. now rewrite IH.
  - now rewrite IH.
Qed.

Lemma collapse_runs_absent (p : ascii -> bool) (r : ascii) (s : string) :
  string_forallb (fun c => negb (p c)) s = true -> collapse_runs p r s = s.
Proof.
  induction s as [| c s IH]; [reflexivity |]. cbn [string_forallb collapse_runs].
  intros H. apply andb_true_iff in H. destruct H as [Hc Hs].
  apply negb_true_iff in Hc. now rewrite Hc, (IH Hs).
Qed.

Lemma string_map_fixed (f : ascii -> ascii) (q : ascii -> bool) (s : string) :
  (forall c, q c = true -> f c = c) ->
  string_forallb q s = true -> string_map f s = s.
Proof.
  intros Hf. induction s as [| c s IH]; simpl; [reflexivity |].
  intros H. apply andb_true_iff in H. destruct H as [Hc Hs].
  now rewrite (Hf c Hc), (IH Hs).
Qed.

Lemma string_filter_fixed (p q : ascii -> bool) (s : string) :
  (forall c, q c = true -> p c = true) ->
  string_forallb q s = true -> string_filter p s = s.
Proof.
  intros Hp. induction s as [| c s IH]; simpl; [reflexivity |].
  intros H. apply andb_true_iff in H. destruct H as [Hc Hs].
  now rewrite (Hp c Hc), (IH Hs).
Qed.

Lemma slug_char_facts (c : ascii) :
  slug_char c = true ->
  lower_char c = c /\ kept c = true /\ no_space c = true.
Proof.
  destruct c as [[] [] [] [] [] [] [] []]; vm_compute; intros H;
    first [discriminate H | repeat split; reflexivity].
Qed.

Lemma is_hyphen_hyphen (c : ascii) : is_hyphen c = true -> c = hyphen.
Proof.
  destruct c as [[] [] [] [] [] [] [] []]; vm_compute; intros H;
    first [discriminate H | reflexivity].
Qed.

Lemma generateSlug_no_double_hyphen (title : string) :
  no_adjacent is_hyphen (generateSlug title) = true.
Proof.
  unfold generateSlug. fold (spec_generateSlug title).
  rewrite (trim_no_space _ (generateSlug_no_space title)).
  apply collapse_runs_no_adjacent.
Qed.

(** X19. Whatever the title, the slug consists of lower-case letters,
    digits, underscores and hyphens only, and never has two hyphens in a
    row. *)
Theorem generateSlug_shape (title : string) :
  string_forallb slug_char (generateSlug title) = true
  /\ no_adjacent is_hyphen (generateSlug title) = true.
Proof.
  split; [apply generateSlug_alphabet | apply generateSlug_no_double_hyphen].
Qed.

(** X20. A slug is its own slug: [generateSlug] applied to one of its
    results returns it unchanged. *)
Theorem generateSlug_idempotent (title : string) :
  generateSlug (generateSlug title) = generateSlug title.
Proof.
  pose proof (generateSlug_alphabet title) as Ha.
  pose proof (generateSlug_no_double_hyphen title) as Hn.
  set (s := generateSlug title) in *.
  assert (Hsp : string_forallb no_space s = true).
  { apply string_forallb_impl with (p := slug_char); [| exact Ha].
    intros c Hc. now apply slug_char_facts. }
  unfold generateSlug. unfold toLowerCase.
  rewrite (string_map_fixed lower_char slug_char s)
    by (try exact Ha; intros c Hc; now apply slug_char_facts).
  rewrite (string_filter_fixed kept slug_char s)
    by (try exact Ha; intros c Hc; now apply slug_char_facts).
  rewrite (collapse_runs_absent is_space hyphen s).
  - rewrite (collapse_runs_fixed is_hyphen hyphen s is_hyphen_hyphen Hn).
    now apply trim_no_space.
  - apply string_forallb_impl with (p := no_space); [| exact Hsp].
    intros c Hc. exact Hc.
Qed.

End SlugShapeFacts.

Section UniqueSlugShapeFacts.

Import Documents Shapes.

Lemma string_of_uint_digits (d : Decimal.uint) :
  string_forallb is_digit (NilEmpty.string_of_uint d) = true.
Proof. induction d; simpl; auto. Qed.

Lemma is_digit_slug_char (c : ascii) : is_digit c = true -> slug_char c = true.
Proof.
  unfold is_digit, slug_char. intros H. rewrite H.
  now rewrite orb_true_r.
Qed.

Lemma candidate_alphabet (baseSlug : string) (k : N) :
  string_forallb slug_char baseSlug = true ->
  string_forallb slug_char (candidate baseSlug k) = true.
Proof.
  intros Hb. unfold candidate. destruct k as [| p]; [exact Hb |].
  rewrite !string_forallb_app, Hb. simpl.
  apply string_forallb_impl with (p := is_digit);
    [apply is_digit_slug_char | apply string_of_uint_digits].
Qed.

(** Whatever [ensureUniqueSlug] returns is one of the candidates, a free
    one. *)
Lemma ensureUniqueSlug_result
  (fuel : nat) (db : DB) (baseSlug : string) (documentId : option Z)
  (r : string) :
  ensureUniqueSlug fuel db baseSlug documentId = Some r ->
  exists k, r = candidate baseSlug k
            /\ slug_taken db r documentId = false.
Proof.
  intros Hr.
  destruct (free_candidate_exists db baseSlug documentId) as [k [_ Hfree]].
  cbv zeta in Hfree.
  destruct (first_free_returned db baseSlug documentId _ Hfree)
    as [first [_ [Hff [_ Hret]]]].
  rewrite ensureUniqueSlug_as_loop in Hr.
  pose proof (loop_fuel_mono db baseSlug documentId fuel 0%N r
                (fuel + S (N.to_nat first))%nat Hr ltac:(lia)) as Hbig.
  change (ensureUniqueSlug (fuel + S (N.to_nat first)) db baseSlug
            documentId = Some r) in Hbig.
  rewrite (Hret (fuel + S (N.to_nat first))%nat ltac:(lia)) in Hbig.
  injection Hbig as <-. exists first. auto.
Qed.

(** X21. The slug [ensureUniqueSlug] returns is the base slug itself or the
    base slug followed by a hyphen and a positive decimal counter; so, made
    from a base slug of lower-case letters, digits, underscores and hyphens,
    it consists of such characters too. *)
Theorem ensureUniqueSlug_keeps_shape
  (fuel : nat) (db : DB) (baseSlug : string) (documentId : option Z)
  (r : string) :
  ensureUniqueSlug fuel db baseSlug documentId = Some r ->
  (r = baseSlug
   \/ exists k, (1 <= k)%N /\ r = baseSlug ++ "-" ++ number_to_string k
                /\ string_forallb is_digit (number_to_string k) = true)
  /\ (string_forallb slug_char baseSlug = true ->
      string_forallb slug_char r = true).
Proof.
  intros Hr. apply ensureUniqueSlug_result in Hr.
  destruct Hr as [k [-> _]]. split.
  - destruct k as [| p]; [now left |]. right. exists (N.pos p).
    split; [lia |]. split; [reflexivity |]. apply string_of_uint_digits.
  - intros Hb. now apply candidate_alphabet.
Qed.

Lemma ensureUniqueSlug_keeps_shape_witness :
  ensureUniqueSlug 2 Samples.db_one_policy
    (generateSlug "Consumer Rights Policy") None
  = Some "consumer-rights-policy-1"
  /\ string_forallb slug_char "consumer-rights-policy-1" = true.
Proof.
  assert (H : ensureUniqueSlug 2 Samples.db_one_policy
                (generateSlug "Consumer Rights Policy") None
              = Some "consumer-rights-policy-1") by (vm_compute; reflexivity).
  split; [exact H |].
  destruct (ensureUniqueSlug_keeps_shape 2 Samples.db_one_policy
              (generateSlug "Consumer Rights Policy") None
              "consumer-rights-policy-1" H) as [_ Hshape].
  apply Hshape. apply generateSlug_alphabet.
Defined.

End UniqueSlugShapeFacts.

(* ================================================================== *)
(** ** Search: order, pages, filters and free text *)
(* ================================================================== *)

Section SearchOrderFacts.

Import Documents Shapes.

Lemma order_le_total (options : SearchOptions) (a b : Document) :
  order_le options a b = true \/ order_le options b a = true.
Proof.
  unfold order_le. destruct (sortBy options) as [[| |] |];
    apply String.leb_total.
Qed.

Lemma insert_sorted_in_order
  (options : SearchOptions) (x : Document) (l : list Document) :
  Sorted (in_order options) l ->
  Sorted (in_order options) (insert_sorted (order_le options) x l).
Proof.
  induction l as [| a l IH]; simpl; intros Hs.
  - repeat constructor.
  - destruct (order_le options x a) eqn:E.
    + constructor; [assumption |]. now constructor.
    + assert (Hax : in_order options a x).
      { destruct (order_le_total options x a) as [H | H];
          [congruence | exact H]. }
      inversion Hs as [| ? ? Hs' Hhd]; subst.
      constructor; [now apply IH |].
      destruct l as [| b l']; simpl; [now constructor |].
      destruct (order_le options x b); [now constructor |].
      inversion Hhd; subst. now constructor.
Qed.

Lemma order_by_in_order (options : SearchOptions) (l : list Document) :
  Sorted (in_order options) (order_by (order_le options) l).
Proof.
  unfold order_by. induction l as [| a l IH]; simpl; [constructor |].
  now apply insert_sorted_in_order.
Qed.

Lemma Sorted_skipn {A : Type} (R : A -> A -> Prop) (n : nat) (l : list A) :
  Sorted R l -> Sorted R (skipn n l).
Proof.
  revert l. induction n as [| n IH]; intros l Hs; [exact Hs |].
  destruct l as [| a l]; [constructor |]. simpl. apply IH.
  now inversion Hs.
Qed.

Lemma Sorted_firstn {A : Type} (R : A -> A -> Prop) (n : nat) (l : list A) :
  Sorted R l -> Sorted R (firstn n l).
Proof.
  revert n. induction l as [| a l IH]; intros n Hs.
  - rewrite firstn_nil. constructor.
  - destruct n as [| n]; [constructor |]. simpl.
    inversion Hs as [| ? ? Hs' Hhd]; subst.
    constructor; [now apply IH |].
    destruct l as [| b l']; [rewrite firstn_nil; constructor |].
    destruct n as [| n]; [constructor |]. simpl.
    inversion Hhd; subst. now constructor.
Qed.

Lemma limit_offset_sorted (R : Document -> Document -> Prop)
  (lim off : Z) (rows : list Document) :
  Sorted R rows -> Sorted R (limit_offset lim off rows).
Proof.
  intros Hs. unfold limit_offset. destruct (lim <? 0).
  - now apply Sorted_skipn.
  - now apply Sorted_firstn, Sorted_skipn.
Qed.

(** X22. The rows [searchDocuments] returns are in the order asked for:
    by title ascending for [sortBy: 'title'], by effective date descending
    for ['date'], by last update descending otherwise; each row sorts no
    later than the next. *)
Theorem searchDocuments_in_order (db : DB) (options : SearchOptions) :
  Sorted (in_order options) (searchDocuments db options)
  /\ (sortBy options = Some by_title ->
      Sorted (fun a b => String.leb (title a) (title b) = true)
        (searchDocuments db options))
  /\ (sortBy options = Some date ->
      Sorted (fun a b => String.leb (effective_date b) (effective_date a)
                         = true)
        (searchDocuments db options)).
Proof.
  assert (H : Sorted (in_order options) (searchDocuments db options)).
  { unfold searchDocuments. apply limit_offset_sorted.
    unfold matching_rows. apply order_by_in_order. }
  split; [exact H | split]; intros Hsort;
    unfold in_order, order_le in H; rewrite Hsort in H; exact H.
Qed.

Lemma insert_sorted_NoDup (le : Document -> Document -> bool)
  (x : Document) (l : list Document) :
  ~ In x l -> NoDup l -> NoDup (insert_sorted le x l).
Proof.
  induction l as [| a l IH]; simpl; intros Hx Hnd.
  - constructor; [intros [] | constructor].
  - destruct (le x a); [now constructor |].
    inversion Hnd as [| ? ? Ha Hnd']; subst. constructor.
    + rewrite insert_sorted_In. intros [-> | Hin]; [| contradiction].
      apply Hx. now left.
    + apply IH; [| assumption]. intros Hin. apply Hx. now right.
Qed.

Lemma order_by_NoDup (le : Document -> Document -> bool) (l : list Document) :
  NoDup l -> NoDup (order_by le l).
Proof.
  unfold order_by. induction l as [| a l IH]; simpl; intros Hnd;
    [constructor |].
  inversion Hnd as [| ? ? Ha Hnd']; subst.
  apply insert_sorted_NoDup; [| now apply IH].
  fold (order_by le l). now rewrite order_by_In.
Qed.

Lemma NoDup_firstn {A : Type} (n : nat) (l : list A) :
  NoDup l -> NoDup (firstn n l).
Proof.
  intros H. rewrite <- (firstn_skipn n l) in H.
  now apply NoDup_app_remove_r in H.
Qed.

Lemma NoDup_skipn {A : Type} (n : nat) (l : list A) :
  NoDup l -> NoDup (skipn n l).
Proof.
  intros H. rewrite <- (firstn_skipn n l) in H.
  now apply NoDup_app_remove_l in H.
Qed.

(** X23. When the [documents] table holds no row twice, no row comes twice
    in a search result. *)
Theorem searchDocuments_no_duplicates (db : DB) (options : SearchOptions) :
  NoDup (documents db) -> NoDup (searchDocuments db options).
Proof.
  intros H. unfold searchDocuments, limit_offset, matching_rows.
  assert (Hm : NoDup (order_by (order_le options)
                        (filter (where_clause db options) (documents db))))
    by now apply order_by_NoDup, NoDup_filter.
  destruct (effective_limit options <? 0).
  - now apply NoDup_skipn.
  - now apply NoDup_firstn, NoDup_skipn.
Qed.

Lemma searchDocuments_no_duplicates_witness :
  NoDup (documents Samples.db_three_statuses)
  /\ NoDup (searchDocuments Samples.db_three_statuses Samples.no_options).
Proof.
  assert (H : NoDup (documents Samples.db_three_statuses)).
  { simpl. repeat constructor; simpl; intuition discriminate. }
  split; [exact H |].
  now apply (searchDocuments_no_duplicates Samples.db_three_statuses
               Samples.no_options).
Defined.

End SearchOrderFacts.

Section SearchPageFacts.

Import Documents Shapes.

Lemma firstn_add {A : Type} (a b : nat) (l : list A) :
  (firstn a l ++ firstn b (skipn a l))%list = firstn (a + b) l.
Proof.
  revert l. induction a as [| a IH]; intros l; [reflexivity |].
  destruct l as [| x l]; simpl; [now rewrite firstn_nil |].
  now rewrite IH.
Qed.

Lemma searchDocuments_page
  (db : DB) (options : SearchOptions) (lim off : Z) :
  0 < lim -> 0 <= off ->
  searchDocuments db (with_page options lim off)
  = firstn (Z.to_nat lim)
      (skipn (Z.to_nat off) (matching_rows db options)).
Proof.
  intros Hl Ho. unfold searchDocuments.
  rewrite effective_offset_value.
  change (matching_rows db (with_page options lim off))
    with (matching_rows db options).
  unfold effective_limit. simpl.
  destruct (lim =? 0) eqn:E; [apply Z.eqb_eq in E; lia |]. simpl.
  unfold limit_offset.
  destruct (lim <? 0) eqn:E'; [apply Z.ltb_lt in E'; lia | reflexivity].
Qed.

(** X24. Consecutive pages tile the selection: the page of [l] rows at
    offset [o] followed by the page of [l'] rows at offset [o + l] is the
    page of [l + l'] rows at offset [o]; paging neither drops nor repeats a
    row. *)
Theorem searchDocuments_pages_tile
  (db : DB) (options : SearchOptions) (l l' o : Z) :
  0 < l -> 0 < l' -> 0 <= o ->
  (searchDocuments db (with_page options l o)
     ++ searchDocuments db (with_page options l' (o + l)))%list
  = searchDocuments db (with_page options (l + l') o).
Proof.
  intros Hl Hl' Ho.
  rewrite !searchDocuments_page by lia.
  replace (Z.to_nat (o + l)) with (Z.to_nat l + Z.to_nat o)%nat by lia.
  rewrite <- skipn_skipn.
  replace (Z.to_nat (l + l')) with (Z.to_nat l + Z.to_nat l')%nat by lia.
  apply firstn_add.
Qed.

Lemma searchDocuments_pages_tile_witness :
  (searchDocuments Samples.db_three_statuses
     (with_page Samples.no_options 1 0)
     ++ searchDocuments Samples.db_three_statuses
          (with_page Samples.no_options 1 (0 + 1)))%list
  = searchDocuments Samples.db_three_statuses
      (with_page Samples.no_options (1 + 1) 0).
Proof.
  apply (searchDocuments_pages_tile Samples.db_three_statuses
           Samples.no_options 1 1 0); lia.
Defined.

(** X25. Every row [searchDocuments] returns is a row of [documents] that
    meets each filter the options carry: the status, content type,
    category, business unit and owner asked for, and, when tags are given,
    a link to at least one of them in [document_tags]. *)
Theorem searchDocuments_rows_meet_filters
  (db : DB) (options : SearchOptions) (d : Document) :
  In d (searchDocuments db options) ->
  In d (documents db)
  /\ (forall s, opt_status options = Some s -> s <> "" -> doc_status d = s)
  /\ (forall t, contentType options = Some t -> t <> "" ->
                content_type d = t)
  /\ (forall c, category options = Some c -> c <> 0 -> category_id d = c)
  /\ (forall b, businessUnit options = Some b -> b <> 0 ->
                business_unit_id d = Some b)
  /\ (forall o, owner options = Some o -> o <> 0 -> owner_id d = o)
  /\ (forall t ts, tags options = Some (t :: ts) ->
                   exists dt, In dt (document_tags db)
                              /\ dt_document_id dt = did d
                              /\ In (dt_tag_id dt) (t :: ts)).
Proof.
  intros Hd. unfold searchDocuments in Hd.
  apply limit_offset_In, matching_rows_In in Hd.
  destruct Hd as [Hin Hw]. split; [assumption |].
  unfold where_clause, other_conditions in Hw.
  repeat (apply andb_true_iff in Hw; destruct Hw as [Hw ?]).
  repeat split.
  - intros s Hs Hne. unfold status_condition in *. rewrite Hs in *.
    simpl in *. apply String.eqb_neq in Hne. rewrite Hne in *. simpl in *.
    match goal with H : String.eqb (doc_status d) s = true |- _ =>
      now apply String.eqb_eq in H end.
  - intros t Ht Hne. rewrite Ht in *. simpl in *.
    apply String.eqb_neq in Hne. rewrite Hne in *. simpl in *.
    match goal with H : String.eqb (content_type d) t = true |- _ =>
      now apply String.eqb_eq in H end.
  - intros c Hc Hne. rewrite Hc in *. simpl in *.
    apply Z.eqb_neq in Hne. rewrite Hne in *. simpl in *.
    match goal with H : (category_id d =? c) = true |- _ =>
      now apply Z.eqb_eq in H end.
  - intros b Hb Hne. rewrite Hb in *. simpl in *.
    apply Z.eqb_neq in Hne. rewrite Hne in *. simpl in *.
    match goal with H : eq_nullable (business_unit_id d) b = true |- _ =>
      unfold eq_nullable in H;
      destruct (business_unit_id d) as [x |]; [| discriminate H];
      apply Z.eqb_eq in H; now subst end.
  - intros o Ho Hne. rewrite Ho in *. simpl in *.
    apply Z.eqb_neq in Hne. rewrite Hne in *. simpl in *.
    match goal with H : (owner_id d =? o) = true |- _ =>
      now apply Z.eqb_eq in H end.
  - intros t ts Ht.
    match goal with H : tag_condition db options d = true |- _ =>
      unfold tag_condition in H; rewrite Ht in H;
      apply existsb_exists in H; destruct H as [dt [Hdt Hc]] end.
    apply andb_true_iff in Hc. destruct Hc as [Hdoc Htag].
    apply Z.eqb_eq in Hdoc. apply existsb_exists in Htag.
    destruct Htag as [x [Hx Heq]]. apply Z.eqb_eq in Heq. subst x.
    exists dt. auto.
Qed.

Lemma searchDocuments_rows_meet_filters_witness :
  In Samples.published_doc
    (searchDocuments Samples.db_tagged Samples.filtered_options)
  /\ doc_status Samples.published_doc = "published"
  /\ category_id Samples.published_doc = 1.
Proof.
  assert (H : In Samples.published_doc
                (searchDocuments Samples.db_tagged Samples.filtered_options))
    by (vm_compute; auto).
  split; [exact H |].
  destruct (searchDocuments_rows_meet_filters Samples.db_tagged
              Samples.filtered_options Samples.published_doc H)
    as [_ [Hst [_ [Hcat _]]]].
  split; [apply Hst; [reflexivity | discriminate]
         | apply Hcat; [reflexivity | lia]].
Defined.

End SearchPageFacts.

Section FreeTextFacts.

Import Documents Shapes.







End FreeTextFacts.

(* ================================================================== *)
(** ** Further witnesses and edge cases *)
(* ================================================================== *)

Section EditFacts.

Import Documents.

(** X27. A document that is edited keeps its slug: when the only rows that
    carry the base slug have the (non-zero) id passed as [documentId], the
    base slug is returned as it is.  Without a [documentId], a slug that
    some row carries is never returned. *)
Theorem ensureUniqueSlug_own_slug
  (fuel : nat) (db : DB) (baseSlug : string) :
  (forall i,
     i <> 0 ->
     (forall d, In d (documents db) -> slug d = baseSlug -> did d = i) ->
     ensureUniqueSlug (S fuel) db baseSlug (Some i) = Some baseSlug)
  /\ (forall d,
        In d (documents db) -> slug d = baseSlug ->
        ensureUniqueSlug fuel db baseSlug None <> Some baseSlug).
Proof.
  split.
  - intros i Hi Hown. unfold ensureUniqueSlug. cbn [ensureUniqueSlug_loop].
    assert (Hfree : slug_taken db baseSlug (Some i) = false).
    { unfold slug_taken. apply Z.eqb_neq in Hi. rewrite Hi.
      rewrite <- not_true_iff_false. intros H. apply existsb_exists in H.
      destruct H as [d [Hd Hc]]. apply andb_true_iff in Hc.
      destruct Hc as [Hs Hid]. apply String.eqb_eq in Hs.
      apply negb_true_iff, Z.eqb_neq in Hid. now apply Hid, Hown. }
    now rewrite Hfree.
  - intros d Hd Hs Hr. apply ensureUniqueSlug_result in Hr.
    destruct Hr as [_ [_ Hfree]]. unfold slug_taken in Hfree.
    rewrite <- not_true_iff_false in Hfree. apply Hfree.
    apply existsb_exists. exists d. split; [assumption |].
    now apply String.eqb_eq.
Qed.

End EditFacts.

Section MoreWitnesses.

Import Auth.

Lemma getUserFromSession_returns_active_owner_witness :
  getUserFromSession Samples.db_admin_logged_in "s1" Samples.t_10h30
  = (Some Samples.admin,
     updateSessionActivity Samples.db_admin_logged_in "s1" Samples.t_10h30)
  /\ status Samples.admin = "active"
  /\ List.length
       (sessions
          (updateSessionActivity Samples.db_admin_logged_in "s1"
             Samples.t_10h30)) = 1%nat.
Proof.
  assert (H : getUserFromSession Samples.db_admin_logged_in "s1"
                Samples.t_10h30
              = (Some Samples.admin,
                 updateSessionActivity Samples.db_admin_logged_in "s1"
                   Samples.t_10h30)) by (vm_compute; reflexivity).
  split; [exact H |].
  destruct (getUserFromSession_returns_active_owner _ _ _ _ _ H)
    as [_ [_ [Hact [_ [_ [_ Hlen]]]]]].
  split; [exact Hact | exact Hlen].
Defined.

Lemma hasPermission_monotone_witness :
  hasPermission Samples.seed_db 1 "approve" = true
  /\ hasPermission Samples.db_more_roles 1 "approve" = true.
Proof.
  assert (H : hasPermission Samples.seed_db 1 "approve" = true)
    by (vm_compute; reflexivity).
  split; [exact H |].
  apply (hasPermission_monotone Samples.seed_db Samples.db_more_roles 1
           "approve"); [| | exact H].
  - intros r Hr. simpl in *. intuition.
  - intros ur Hur. simpl in *. intuition.
Defined.

End MoreWitnesses.

(* ================================================================== *)
(** ** The public list pages *)
(* ================================================================== *)

Section PublicPageFacts.

Import Documents Routes PublicPages.

(** A session lookup does not change what a search returns. *)
Lemma searchDocuments_after_session
  (db : DB) (cookie : option string) (now : Z) (options : SearchOptions) :
  searchDocuments (snd (session_user db cookie now)) options
  = searchDocuments db options.
Proof.
  destruct (session_user db cookie now) as [user db'] eqn:E.
  destruct user as [u |]; simpl.
  - destruct (session_user_some _ _ _ _ _ E) as [_ [_ ->]]. reflexivity.
  - now rewrite (session_user_none_store _ _ _ _ E).
Qed.

Lemma published_rows (db : DB) (options : SearchOptions) (d : Document) :
  opt_status options = Some "published" ->
  In d (searchDocuments db options) ->
  In d (documents db) /\ doc_status d = "published".
Proof.
  intros Hs Hd. unfold searchDocuments in Hd.
  apply limit_offset_In, matching_rows_In in Hd.
  destruct Hd as [Hin Hw]. split; [assumption |].
  unfold where_clause in Hw. apply andb_true_iff in Hw.
  destruct Hw as [_ Hst]. unfold status_condition in Hst.
  rewrite Hs in Hst. simpl in Hst. now apply String.eqb_eq in Hst.
Qed.

(** X28. The public search page lists published documents only, at most 50
    of them, and nothing at all when the query is absent or empty; the
    recent page lists published documents only, at most 20, latest
    effective date first.  Signed in or not, no draft, pending or archived
    document is listed. *)
Theorem public_pages_list_published
  (param_q cookie : option string) (now : Z) (db : DB) :
  (forall d, In d (listed (fst (search_page param_q cookie now db))) ->
             In d (documents db) /\ doc_status d = "published")
  /\ (List.length (listed (fst (search_page param_q cookie now db)))
      <= 50)%nat
  /\ (truthy_string param_q = false ->
      listed (fst (search_page param_q cookie now db)) = [])
  /\ (forall d, In d (listed (fst (recent_page cookie now db))) ->
                In d (documents db) /\ doc_status d = "published")
  /\ (List.length (listed (fst (recent_page cookie now db))) <= 20)%nat
  /\ Sorted (fun a b => String.leb (effective_date b) (effective_date a)
                        = true)
       (listed (fst (recent_page cookie now db))).
Proof.
  unfold search_page, recent_page.
  pose proof (searchDocuments_after_session db cookie now) as Hsame.
  destruct (session_user db cookie now) as [user db'] eqn:E.
  simpl in Hsame. simpl. rewrite !Hsame.
  split; [| split; [| split; [| split; [| split]]]].
  - intros d Hd.
    destruct (negb (String.eqb (or_default param_q "") ""));
      [| contradiction].
    now apply (published_rows db _ d) in Hd.
  - destruct (negb (String.eqb (or_default param_q "") ""));
      [| simpl; lia].
    unfold searchDocuments.
    apply (limit_offset_length 50). lia.
  - intros Hq. unfold or_default. now rewrite Hq.
  - intros d Hd. now apply (published_rows db _ d) in Hd.
  - unfold searchDocuments. apply (limit_offset_length 20). lia.
  - unfold searchDocuments. apply limit_offset_sorted.
    unfold matching_rows.
    exact (order_by_in_order recent_page_options _).
Qed.

End PublicPageFacts.
